(** * Deploy-Ninja build server: a shallow embedding and its properties

    The build server ([build-server/src/server.js]) runs one disposable
    build job: it validates its configuration, runs the install and build
    commands in a child process, uploads the produced artifacts, records
    metrics and tears everything down.

    The embedding follows the JavaScript sources file by file:

    - [utils/errorHandler.js]: [BuildError], [ErrorHandler];
    - [config/config.js]: [config], [validateConfig];
    - [services/clickhouseService.js], [services/kafkaService.js],
      [services/s3Service.js]: the collaborators;
    - [server.js]: [BuildServer].

    JavaScript is single threaded: a piece of code runs without
    interruption until it reaches an [await] whose promise is still
    pending.  Asynchronous functions are therefore programs of a small
    monad [prog] whose only scheduling points are the pending [await]s;
    the event-driven parts (the child process of [executeBuildProcess],
    the upload fan-out of [uploadArtifacts]) are state machines whose
    transitions are the callbacks the event loop runs. *)

From Stdlib Require Import ZArith String Ascii List Lia DecimalString.
From stdpp Require Import gmap strings list.

Set Warnings "-register-all".

Open Scope Z_scope.
Open Scope string_scope.

(* ================================================================= *)
(** ** JavaScript values the sources rely on *)

(** The value of [`${n}`] for a number. *)
Definition string_of_Z (z : Z) : string := NilZero.string_of_int (Z.to_int z).
Definition string_of_nat (n : nat) : string := string_of_Z (Z.of_nat n).

(** An exit code as Node reports it to a ['close'] listener: a number, or
    [null] when the child was terminated by a signal. *)
Definition string_of_code (code : option Z) : string :=
  match code with
  | Some c => string_of_Z c
  | None => "null"
  end.

(** [!!value] for a value that is a string or [undefined]. *)
Definition truthy (v : option string) : bool :=
  match v with
  | Some s => negb (String.eqb s "")
  | None => false
  end.

(** [a || b] on strings-or-undefined, with a string default. *)
Definition or_else (v : option string) (d : string) : string :=
  if truthy v then default d v else d.

(* ================================================================= *)
(** ** utils/errorHandler.js: errors *)

(** The [details] objects the sources attach to a [BuildError]. *)
Inductive details : Type :=
| NoDetails                                            (* {} *)
| MissingVars (missingVars : list string)              (* { missingVars } *)
| OriginalError (originalError : string)               (* { originalError } *)
| ExitDetails (exitCode : option Z) (buildErrors : string)
                                                       (* { exitCode, buildErrors } *)
| TimeoutDetails.                                      (* { timeout: true } *)

(** A thrown JavaScript error: a plain [Error] has no [code]. *)
Record exn : Type := mkError {
  e_name : string;
  e_message : string;
  e_code : option string;
  e_details : details
}.

Definition Error (message : string) : exn :=
  mkError "Error" message None NoDetails.

Definition BuildError (message code : string) (d : details) : exn :=
  mkError "BuildError" message (Some code) d.

(** Result of a synchronous call that may throw. *)
Inductive completion (A : Type) : Type :=
| Normal (a : A)
| Thrown (e : exn).
Arguments Normal {A} a.
Arguments Thrown {A} e.

(** How an asynchronous operation settles. *)
Inductive settle : Type :=
| Fulfilled
| Rejected (e : exn).

Module ErrorCodes.
(** [ErrorHandler.BUILD_ERROR_CODES] *)
Definition INITIALIZATION_FAILED := "INIT_FAILED".
Definition BUILD_FAILED := "BUILD_FAILED".
Definition UPLOAD_FAILED := "UPLOAD_FAILED".
Definition KAFKA_ERROR := "KAFKA_ERROR".
Definition S3_ERROR := "S3_ERROR".
Definition CLICKHOUSE_ERROR := "CLICKHOUSE_ERROR".
Definition VALIDATION_ERROR := "VALIDATION_ERROR".
Definition UNKNOWN_ERROR := "UNKNOWN_ERROR".
End ErrorCodes.
Import ErrorCodes.

(* ================================================================= *)
(** ** Configuration: process.env, config/config.js, validateEnvironment *)

(** [process.env]: a JavaScript object used as a map from names to strings
    (as it is once [dotenv.config] has added the entries of [.env]). *)
Abbreviation environment := (gmap string string).

(** The [config] object is a tree of plain objects with string (or
    [undefined]) leaves. *)
Inductive jsval : Type :=
| JUndefined
| JStr (s : string)
| JObj (fields : list (string * jsval)).

Fixpoint assoc (key : string) (fields : list (string * jsval)) : jsval :=
  match fields with
  | [] => JUndefined
  | (k, v) :: rest => if String.eqb k key then v else assoc key rest
  end.

(** [obj?.[key]] *)
Definition opt_get (obj : jsval) (key : string) : jsval :=
  match obj with
  | JObj fields => assoc key fields
  | _ => JUndefined
  end.

Definition js_truthy (v : jsval) : bool :=
  match v with
  | JUndefined => false
  | JStr s => negb (String.eqb s "")
  | JObj _ => true
  end.

Definition of_env (env : environment) (var : string) : jsval :=
  match env !! var with
  | Some s => JStr s
  | None => JUndefined
  end.

(** [field.split('.')] *)
Fixpoint split_dot_aux (cur : string) (s : string) : list string :=
  match s with
  | EmptyString => [cur]
  | String c rest =>
      if Ascii.eqb c "."%char then cur :: split_dot_aux "" rest
      else split_dot_aux (cur +:+ String c "") rest
  end.
Definition split_dot (s : string) : list string := split_dot_aux "" s.

Module Config.

(** The object literal of config/config.js, lines 7-36. *)
Definition config (env : environment) : jsval :=
  JObj [
    ("aws", JObj [
      ("region", of_env env "AWS_REGION");
      ("accessKeyId", of_env env "AWS_ACCESS_KEY_ID");
      ("secretAccessKey", of_env env "AWS_SECRET_ACCESS_KEY");
      ("s3BucketName", of_env env "S3_BUCKET_NAME") ]);
    ("kafka", JObj [
      ("clientId", of_env env "KAFKA_CLIENT_ID");
      ("broker", of_env env "KAFKA_BROKER");
      ("sasl", JObj [
        ("username", of_env env "SASL_USERNAME");
        ("password", of_env env "SASL_PASSWORD");
        ("mechanism", of_env env "SASL_MECHANISM") ]) ]);
    ("clickhouse", JObj [
      ("host", of_env env "CLICKHOUSE_HOST");
      ("database", of_env env "CLICKHOUSE_DB");
      ("username", of_env env "CLICKHOUSE_USER");
      ("password", of_env env "CLICKHOUSE_PASSWORD") ]);
    ("project", JObj [
      ("uri", of_env env "PROJECT_URI");
      ("deploymentId", of_env env "DEPLOYMENT_ID");
      ("installCommand", of_env env "PROJECT_INSTALL_COMMAND");
      ("buildCommand", of_env env "PROJECT_BUILD_COMMAND");
      ("rootDir", of_env env "PROJECT_ROOT_DIR") ]) ].

Definition requiredFields : list string :=
  [ "aws.region"; "aws.accessKeyId"; "aws.secretAccessKey";
    "aws.s3BucketName"; "project.uri"; "project.deploymentId";
    "project.installCommand"; "project.buildCommand" ].

(** [field.split('.').reduce((obj, key) => obj?.[key], config)] *)
Definition field_value (cfg : jsval) (field : string) : jsval :=
  fold_left opt_get (split_dot field) cfg.

(** The [for] loop of [validateConfig]: the first field without a value
    throws. *)
Fixpoint validate_fields (cfg : jsval) (fields : list string)
  : completion unit :=
  match fields with
  | [] => Normal tt
  | field :: rest =>
      if negb (js_truthy (field_value cfg field))
      then Thrown (Error ("Missing required configuration: " +:+ field))
      else validate_fields cfg rest
  end.

Definition validateConfig (env : environment) : completion unit :=
  validate_fields (config env) requiredFields.

End Config.

Module ErrorHandler.

(** [ErrorHandler.validateEnvironment(requiredVars)] *)
Definition validateEnvironment (env : environment)
    (requiredVars : list string) : completion unit :=
  let missingVars :=
    List.filter (fun varName => negb (truthy (env !! varName))) requiredVars in
  if (0 <? length missingVars)%nat
  then Thrown (BuildError
         ("Missing required environment variables: "
            +:+ String.concat ", " missingVars)
         VALIDATION_ERROR
         (MissingVars missingVars))
  else Normal tt.

End ErrorHandler.

(** The variables [initialize()] requires (server.js, lines 22-28). *)
Definition initialize_required : list string :=
  [ "PROJECT_URI"; "DEPLOYMENT_ID"; "PROJECT_INSTALL_COMMAND";
    "PROJECT_BUILD_COMMAND"; "PROJECT_ROOT_DIR" ].

(** What the process does before any service is touched: server.js first
    loads config/config.js (line 4), whose last statement runs
    [validateConfig()]; only when the module has loaded does the last
    statement of server.js call [initialize()], which starts with
    [validateEnvironment]. *)
Definition startup_validation (env : environment) : completion unit :=
  match Config.validateConfig env with
  | Thrown e => Thrown e
  | Normal _ => ErrorHandler.validateEnvironment env initialize_required
  end.

(* ================================================================= *)
(** ** server.js: executeBuildProcess (the Subprocess Runner) *)

Definition nl : string := String "010"%char "".

(** A promise settles once: later [resolve]/[reject] calls do nothing. *)
Inductive promise : Type :=
| Pending
| Resolved
| RejectedWith (e : exn).

(** A Log Event handed to a collaborator. *)
Inductive sink_call : Type :=
| Publish (log : string)                   (* kafkaService.publishLog(log) *)
| InsertLog (log : string) (level : string).
                                (* clickhouseService.insertBuildLog(id, log, level) *)

Module Runner.

(** The listeners [executeBuildProcess] puts on the child and the timer it
    arms, as a state machine over the events the event loop delivers.
    The lines the listeners write to the console are not recorded. *)

(** What the child process emits; times are in milliseconds. *)
Inductive child_event : Type :=
| StdoutData (data : string)
| StderrData (data : string)
| Close (code : option Z)
| ErrorEvent (message : string).

Record state : Type := mkState {
  buildOutput : string;
  buildErrors : string;
  outcome : promise;          (* the promise [executeBuildProcess] returns *)
  buildTimeout : option Z;    (* the armed timer and the time it is due *)
  killed : bool;              (* [this.buildProcess.kill()] was called *)
  forwarded : list sink_call  (* calls made by the ['data'] listeners *)
}.

(** [30 * 60 * 1000] *)
Definition timeout_ms : Z := 30 * 60 * 1000.

(** The body of the promise executor, run at time [now]: the buffers are
    empty, the listeners are in place and the timer is armed. *)
Definition start (now : Z) : state :=
  mkState "" "" Pending (Some (now + timeout_ms)) false [].

Definition resolve (st : state) : state :=
  match outcome st with
  | Pending => mkState (buildOutput st) (buildErrors st) Resolved
                 (buildTimeout st) (killed st) (forwarded st)
  | _ => st
  end.

Definition reject (e : exn) (st : state) : state :=
  match outcome st with
  | Pending => mkState (buildOutput st) (buildErrors st) (RejectedWith e)
                 (buildTimeout st) (killed st) (forwarded st)
  | _ => st
  end.

Definition clearTimeout (st : state) : state :=
  mkState (buildOutput st) (buildErrors st) (outcome st) None
    (killed st) (forwarded st).

Definition kill (st : state) : state :=
  mkState (buildOutput st) (buildErrors st) (outcome st) (buildTimeout st)
    true (forwarded st).

(** [this.buildProcess.stdout.on('data', ...)] *)
Definition on_stdout (output : string) (st : state) : state :=
  mkState (buildOutput st +:+ output) (buildErrors st) (outcome st)
    (buildTimeout st) (killed st)
    (forwarded st ++ [Publish output; InsertLog output "INFO"]).

(** [this.buildProcess.stderr.on('data', ...)] *)
Definition on_stderr (error : string) (st : state) : state :=
  mkState (buildOutput st) (buildErrors st +:+ error) (outcome st)
    (buildTimeout st) (killed st)
    (forwarded st ++ [Publish ("Error: " +:+ error); InsertLog error "ERROR"]).

Definition exit_error (code : option Z) (buildErrors : string) : exn :=
  BuildError
    ("Build process exited with code " +:+ string_of_code code +:+ nl
       +:+ buildErrors)
    BUILD_FAILED
    (ExitDetails code buildErrors).

(** The two ['close'] listeners, in the order they were added. *)
Definition on_close (code : option Z) (st : state) : state :=
  let st1 :=
    match code with
    | Some 0 => resolve st
    | _ => reject (exit_error code (buildErrors st)) st
    end in
  clearTimeout st1.

(** [this.buildProcess.on('error', ...)] *)
Definition on_error (message : string) (st : state) : state :=
  reject (BuildError ("Failed to start build process: " +:+ message)
            BUILD_FAILED (OriginalError message)) st.

Definition timeout_error : exn :=
  BuildError "Build process timed out" BUILD_FAILED TimeoutDetails.

(** The callback given to [setTimeout]; a timer that has fired is no
    longer armed. *)
Definition on_timeout (st : state) : state :=
  reject timeout_error (kill (clearTimeout st)).

Definition on_event (ev : child_event) (st : state) : state :=
  match ev with
  | StdoutData d => on_stdout d st
  | StderrData d => on_stderr d st
  | Close code => on_close code st
  | ErrorEvent m => on_error m st
  end.

(** The event loop reaching time [t]: an armed timer that is due fires. *)
Definition fire_due (t : Z) (st : state) : state :=
  match buildTimeout st with
  | Some due => if (due <=? t)%Z then on_timeout st else st
  | None => st
  end.

(** An event of the child delivered at time [t]. *)
Definition deliver (st : state) (tev : Z * child_event) : state :=
  on_event (snd tev) (fire_due (fst tev) st).

Definition run (evs : list (Z * child_event)) (st : state) : state :=
  fold_left deliver evs st.

(** [executeBuildProcess] started at [now], the events [evs] of the
    child, and the event loop then idle until [t_end]. *)
Definition executeBuildProcess (now : Z) (evs : list (Z * child_event))
    (t_end : Z) : state :=
  fire_due t_end (run evs (start now)).

Definition is_data (ev : child_event) : bool :=
  match ev with
  | StdoutData _ | StderrData _ => true
  | _ => false
  end.

(** The text the child wrote to stderr. *)
Fixpoint stderr_text (evs : list (Z * child_event)) : string :=
  match evs with
  | [] => ""
  | (_, StderrData d) :: rest => d +:+ stderr_text rest
  | _ :: rest => stderr_text rest
  end.

End Runner.


(* ================================================================= *)
(** ** Paths *)

(** [path.join(a, b)] for a normalized directory [a] and a relative entry
    name [b] as [fs.readdirSync] returns it. *)
Definition path_join (a b : string) : string := a +:+ "/" +:+ b.

Definition is_slash (c : ascii) : bool := Ascii.eqb c "/"%char.

Fixpoint drop_slashes (l : list ascii) : list ascii :=
  match l with
  | c :: rest => if is_slash c then drop_slashes rest else l
  | [] => []
  end.

Fixpoint take_segment (l : list ascii) : list ascii :=
  match l with
  | c :: rest => if is_slash c then [] else c :: take_segment rest
  | [] => []
  end.

(** [path.basename(p)] (POSIX): scanning from the end, trailing slashes
    are skipped and the characters up to the previous slash are kept. *)
Definition basename (p : string) : string :=
  string_of_list_ascii
    (rev (take_segment (drop_slashes (rev (list_ascii_of_string p))))).

(* ================================================================= *)
(** ** services/s3Service.js *)

(** The argument of [new PutObjectCommand]; [Body] is the path the read
    stream was opened on. *)
Record put_object : Type := mkPut {
  Bucket : string;
  Key : string;
  Body : string;
  ContentType : string
}.

Module S3Service.
Section S3Service.

(** [mime.lookup] of the [mime-types] package: the media type registered
    for the extension of the path, or [false]. *)
Variable mime_lookup : string -> option string.
(** [config.aws.s3BucketName] *)
Variable s3BucketName : string.

(** The command [uploadFile(filePath, projectUri)] sends. *)
Definition uploadFile (filePath projectUri : string) : put_object :=
  let fileName := basename filePath in
  mkPut s3BucketName
    ("__outputs/" +:+ projectUri +:+ "/" +:+ fileName)
    filePath
    (or_else (mime_lookup filePath) "application/octet-stream").

End S3Service.
End S3Service.

(* ================================================================= *)
(** ** server.js: uploadArtifacts (the Artifact Uploader Coordinator) *)

Module Uploader.

(** One [uploadPromise] of the loop: waiting for [s3Service.uploadFile],
    waiting for the [publishLog] of its progress line, fulfilled, or
    rejected. *)
Inductive task : Type :=
| AwaitUpload
| AwaitPublish
| Done
| Failed (e : exn).

(** The completions the event loop delivers, by index of the promise in
    [uploadPromises]. *)
Inductive event : Type :=
| UploadSettled (i : nat) (r : settle)
| PublishSettled (i : nat) (r : settle).

Record state : Type := mkState {
  uploaded_files : list string;  (* [file] of each promise, in loop order *)
  totalFiles : nat;
  uploadedCount : nat;
  uploadPromises : list task;
  sent : list put_object;        (* commands given to the S3 client *)
  published : list string;       (* lines given to [kafkaService.publishLog] *)
  all : promise                  (* [Promise.all(uploadPromises)] *)
}.

Definition progress (uploadedCount totalFiles : nat) : string :=
  "Upload progress: " +:+ string_of_nat uploadedCount +:+ "/"
    +:+ string_of_nat totalFiles +:+ " files".

Definition upload_error (file : string) (cause : exn) : exn :=
  BuildError ("Failed to upload " +:+ file) UPLOAD_FAILED
    (OriginalError (e_message cause)).

Definition is_done (t : task) : bool :=
  match t with Done => true | _ => false end.

Definition is_failed (t : task) : bool :=
  match t with Failed _ => true | _ => false end.

Definition is_settled (t : task) : bool := is_done t || is_failed t.


Section Uploader.

Variable mime_lookup : string -> option string.
Variable s3BucketName : string.
(** [config.project.uri] *)
Variable uri : string.
(** [path.join(this.outputDir, 'dist')] *)
Variable distDir : string.
(** [fs.readdirSync(distDir, { recursive: true })]: every entry of the
    tree, by its path relative to [distDir]. *)
Variable files : list string.
(** [fs.lstatSync(p).isDirectory()] *)
Variable isDirectory : string -> bool.

(** An entry of the listing that is not a directory, and the command its
    upload sends. *)
Definition is_file (file : string) : bool :=
  negb (isDirectory (path_join distDir file)).

Definition command_for (file : string) : put_object :=
  S3Service.uploadFile mime_lookup s3BucketName (path_join distDir file) uri.

(** The [for] loop: a directory is skipped, any other entry starts an
    upload at once. *)
Fixpoint start_uploads (fs : list string) : list (string * put_object) :=
  match fs with
  | [] => []
  | file :: rest =>
      let filePath := path_join distDir file in
      if isDirectory filePath then start_uploads rest
      else (file, S3Service.uploadFile mime_lookup s3BucketName filePath uri)
             :: start_uploads rest
  end.

(** The synchronous part of [uploadArtifacts] once [distDir] exists, up to
    the [await Promise.all]. [Promise.all] of no promise is fulfilled. *)
Definition start : state :=
  let totalFiles :=
    length (List.filter
              (fun file => negb (isDirectory (path_join distDir file))) files) in
  let started := start_uploads files in
  mkState (map fst started) totalFiles 0
    (map (fun _ => AwaitUpload) started)
    (map snd started)
    []
    (match started with [] => Resolved | _ => Pending end).

(** [uploadArtifacts] as far as its synchronous part goes. *)
Definition uploadArtifacts (distDir_exists : bool) : completion state :=
  if negb distDir_exists
  then Thrown (BuildError "Build directory not found" BUILD_FAILED NoDetails)
  else Normal start.

End Uploader.

Definition set_task (i : nat) (t : task) (st : state) : state :=
  mkState (uploaded_files st) (totalFiles st) (uploadedCount st)
    (<[i := t]> (uploadPromises st)) (sent st) (published st) (all st).

(** [Promise.all] rejects with the first rejection it sees. *)
Definition reject_all (e : exn) (st : state) : state :=
  match all st with
  | Pending => mkState (uploaded_files st) (totalFiles st) (uploadedCount st)
                 (uploadPromises st) (sent st) (published st) (RejectedWith e)
  | _ => st
  end.

(** [Promise.all] is fulfilled once every promise is. *)
Definition resolve_all (st : state) : state :=
  match all st with
  | Pending =>
      if forallb is_done (uploadPromises st)
      then mkState (uploaded_files st) (totalFiles st) (uploadedCount st)
             (uploadPromises st) (sent st) (published st) Resolved
      else st
  | _ => st
  end.

(** [uploadedCount++] and the call of [publishLog] with the progress
    line, which happen in one go after the [await] of the upload. *)
Definition count_and_publish (st : state) : state :=
  let uploadedCount' := S (uploadedCount st) in
  mkState (uploaded_files st) (totalFiles st) uploadedCount'
    (uploadPromises st) (sent st)
    (published st ++ [progress uploadedCount' (totalFiles st)])
    (all st).

Definition fail_task (i : nat) (cause : exn) (st : state) : state :=
  let file := default "" (uploaded_files st !! i) in
  let e := upload_error file cause in
  reject_all e (set_task i (Failed e) st).

(** One completion; a completion nobody waits for changes nothing. *)
Definition step (st : state) (ev : event) : state :=
  match ev with
  | UploadSettled i r =>
      match uploadPromises st !! i with
      | Some AwaitUpload =>
          match r with
          | Fulfilled => set_task i AwaitPublish (count_and_publish st)
          | Rejected cause => fail_task i cause st
          end
      | _ => st
      end
  | PublishSettled i r =>
      match uploadPromises st !! i with
      | Some AwaitPublish =>
          match r with
          | Fulfilled => resolve_all (set_task i Done st)
          | Rejected cause => fail_task i cause st
          end
      | _ => st
      end
  end.

Definition run (evs : list event) (st : state) : state :=
  fold_left step evs st.


(** [Promise.all] is fulfilled only when every promise is, and rejected
    only when one of them is. *)
Definition all_agrees (st : state) : Prop :=
  match all st with
  | Pending => True
  | Resolved => forallb is_done (uploadPromises st) = true
  | RejectedWith _ => existsb is_failed (uploadPromises st) = true
  end.


End Uploader.

(** An upload that has been counted and has not failed since. *)
Definition counted (t : Uploader.task) : bool :=
  match t with
  | Uploader.AwaitPublish | Uploader.Done => true
  | _ => false
  end.

(* ================================================================= *)
(** ** Asynchronous code: state, effects and the [prog] monad *)

(** A row handed to [client.insert]. The [event_id] of a log row
    ([crypto.randomUUID()]) is left out. *)
Inductive row : Type :=
| LogRow (deployment_id log level : string) (timestamp : Z)
| MetricsRow (deployment_id project_uri : string)
    (start_time : option Z) (end_time : Z) (duration_seconds : Z)
    (status error_message : string) (timestamp : Z).

(** The asynchronous requests the code awaits. *)
Inductive io : Type :=
| ChPing                                   (* client.ping() *)
| ChExec (table : string)                  (* client.exec({ query }) *)
| ChInsert (table : string) (values : row) (* client.insert(...) *)
| ChClose                                  (* client.close() *)
| ProducerConnect                          (* producer.connect() *)
| ProducerSend (log : string)              (* producer.send(...) *)
| ProducerDisconnect                       (* producer.disconnect() *)
| BuildRun              (* the promise made by [executeBuildProcess] *)
| UploadAll.            (* the [Promise.all] of [uploadArtifacts] *)

(** The kind of a request, by which a schedule names the request that
    settles. *)
Inductive opname : Type :=
| OPing | OExec | OInsert | OClose | OConnect | OSend | ODisconnect | OBuild | OUploads.

Definition name_of (op : io) : opname :=
  match op with
  | ChPing => OPing
  | ChExec _ => OExec
  | ChInsert _ _ => OInsert
  | ChClose => OClose
  | ProducerConnect => OConnect
  | ProducerSend _ => OSend
  | ProducerDisconnect => ODisconnect
  | BuildRun => OBuild
  | UploadAll => OUploads
  end.

Definition opname_eqb (a b : opname) : bool :=
  match a, b with
  | OPing, OPing | OExec, OExec | OInsert, OInsert | OClose, OClose
  | OConnect, OConnect | OSend, OSend | ODisconnect, ODisconnect
  | OBuild, OBuild | OUploads, OUploads => true
  | _, _ => false
  end.

(** What the process does to the outside world, in order. *)
Inductive effect : Type :=
| LogInfo (message : string)                      (* logger.info *)
| LogError (message : string) (cause : option exn)   (* logger.error *)
| Issue (op : io)                  (* a request handed to a collaborator *)
| Spawn (command cwd : string)                    (* child_process.exec *)
| Kill                                (* this.buildProcess.kill() *)
| RmDir                               (* fs.rmSync(this.outputDir, ...) *)
| MkDir                               (* fs.mkdirSync(this.outputDir, ...) *)
| Uncaught (e : exn).     (* the runtime reports an exception nobody caught *)

Inductive exit_status : Type :=
| Exited (code : Z)              (* process.exit(code) *)
| Signaled (sig : string).       (* ended by a signal nobody listens to *)

(** The mutable state the asynchronous code shares: the fields of the
    [BuildServer] instance and of the service singletons, and the part of
    the outside world the code looks at. *)
Record server : Type := mkServer {
  env : environment;            (* process.env *)
  isExiting : bool;             (* this.isExiting *)
  buildStartTime : option Z;    (* this.buildStartTime, null at first *)
  buildProcess : option bool;   (* this.buildProcess: null, or a child and
                                   its [killed] flag *)
  isConnected : bool;           (* clickhouseService.isConnected *)
  producer : bool;              (* kafkaService.producer is not null *)
  listening : bool;             (* setupCleanup has added its listeners *)
  clock : Z;                    (* the time [new Date()] reads, in ms *)
  outputDir_exists : bool;      (* fs.existsSync(this.outputDir) *)
  dist_built : bool;            (* the build leaves a [dist] directory *)
  fs_error : option string;     (* rmSync and mkdirSync throw this *)
  trace : list effect;
  exited : option exit_status
}.

(** Field updates ([this.isExiting = true] and the like). *)
Definition set_isExiting (b : bool) (s : server) : server :=
  let 'mkServer e0 x0 t0 p0 c0 k0 l0 n0 o0 d0 f0 h0 q0 := s in
  mkServer e0 b t0 p0 c0 k0 l0 n0 o0 d0 f0 h0 q0.

Definition set_buildStartTime (t : option Z) (s : server) : server :=
  let 'mkServer e0 x0 t0 p0 c0 k0 l0 n0 o0 d0 f0 h0 q0 := s in
  mkServer e0 x0 t p0 c0 k0 l0 n0 o0 d0 f0 h0 q0.

Definition set_buildProcess (c : option bool) (s : server) : server :=
  let 'mkServer e0 x0 t0 p0 c0 k0 l0 n0 o0 d0 f0 h0 q0 := s in
  mkServer e0 x0 t0 c c0 k0 l0 n0 o0 d0 f0 h0 q0.

Definition set_isConnected (b : bool) (s : server) : server :=
  let 'mkServer e0 x0 t0 p0 c0 k0 l0 n0 o0 d0 f0 h0 q0 := s in
  mkServer e0 x0 t0 p0 b k0 l0 n0 o0 d0 f0 h0 q0.

Definition set_producer (b : bool) (s : server) : server :=
  let 'mkServer e0 x0 t0 p0 c0 k0 l0 n0 o0 d0 f0 h0 q0 := s in
  mkServer e0 x0 t0 p0 c0 b l0 n0 o0 d0 f0 h0 q0.

Definition set_listening (b : bool) (s : server) : server :=
  let 'mkServer e0 x0 t0 p0 c0 k0 l0 n0 o0 d0 f0 h0 q0 := s in
  mkServer e0 x0 t0 p0 c0 k0 b n0 o0 d0 f0 h0 q0.

Definition set_outputDir_exists (b : bool) (s : server) : server :=
  let 'mkServer e0 x0 t0 p0 c0 k0 l0 n0 o0 d0 f0 h0 q0 := s in
  mkServer e0 x0 t0 p0 c0 k0 l0 n0 b d0 f0 h0 q0.

Definition set_exited (x : option exit_status) (s : server) : server :=
  let 'mkServer e0 x0 t0 p0 c0 k0 l0 n0 o0 d0 f0 h0 q0 := s in
  mkServer e0 x0 t0 p0 c0 k0 l0 n0 o0 d0 f0 h0 x.

Definition set_clock (t : Z) (s : server) : server :=
  let 'mkServer e0 x0 t0 p0 c0 k0 l0 n0 o0 d0 f0 h0 q0 := s in
  mkServer e0 x0 t0 p0 c0 k0 l0 t o0 d0 f0 h0 q0.

(** Append an effect to the trace. *)
Definition emit (e : effect) (s : server) : server :=
  let 'mkServer e0 x0 t0 p0 c0 k0 l0 n0 o0 d0 f0 h0 q0 := s in
  mkServer e0 x0 t0 p0 c0 k0 l0 n0 o0 d0 f0 (h0 ++ [e]) q0.

(** [process.exit(code)]: the first call ends the process. *)
Definition do_exit (code : Z) (s : server) : server :=
  match exited s with
  | None => set_exited (Some (Exited code)) s
  | Some _ => s
  end.

(** The body of an [async] function. [Await op k] is an [await] on a
    request that is still pending: the function is suspended until the
    event loop delivers how [op] settled.  [AllSettled ps k] is
    [await Promise.allSettled(ps)]; [Fork p k] starts the promise [p] and
    goes on without awaiting it. *)
Inductive prog : Type :=
| Ret
| Throw (e : exn)
| Exit (code : Z)
| Read (k : server -> prog)
| Write (f : server -> server) (k : prog)
| Await (op : io) (k : settle -> prog)
| AllSettled (ps : list prog) (k : prog)
| Fork (p : prog) (k : prog).

(** [p; q] *)
Fixpoint and_then (p q : prog) : prog :=
  match p with
  | Ret => q
  | Throw e => Throw e
  | Exit c => Exit c
  | Read k => Read (fun s => and_then (k s) q)
  | Write f k => Write f (and_then k q)
  | Await op k => Await op (fun r => and_then (k r) q)
  | AllSettled ps k => AllSettled ps (and_then k q)
  | Fork c k => Fork c (and_then k q)
  end.

(** [try { p } catch (error) { h error }]; for a promise, [p.catch(h)].
    The promises given to [Promise.allSettled] and a forked promise are
    chains of their own: what they throw is not thrown here. *)
Fixpoint try_catch (p : prog) (h : exn -> prog) : prog :=
  match p with
  | Ret => Ret
  | Throw e => h e
  | Exit c => Exit c
  | Read k => Read (fun s => try_catch (k s) h)
  | Write f k => Write f (try_catch k h)
  | Await op k => Await op (fun r => try_catch (k r) h)
  | AllSettled ps k => AllSettled ps (try_catch k h)
  | Fork c k => Fork c (try_catch k h)
  end.

Declare Scope prog_scope.
Delimit Scope prog_scope with prog.
Bind Scope prog_scope with prog.
Notation "p ;; q" := (and_then p q)
  (at level 100, q at level 200, right associativity) : prog_scope.
Open Scope prog_scope.

Definition act (f : server -> server) : prog := Write f Ret.
Definition logger_info (message : string) : prog := act (emit (LogInfo message)).
Definition logger_error (message : string) (cause : option exn) : prog :=
  act (emit (LogError message cause)).

(** [await request]: the request is handed over, and the function goes on
    when it has settled; a rejection is thrown at the [await]. *)
Definition call (op : io) : prog :=
  Write (emit (Issue op))
    (Await op (fun r => match r with
                        | Fulfilled => Ret
                        | Rejected e => Throw e
                        end)).

(** *** Running programs *)

Definition finished (p : prog) : bool :=
  match p with
  | Ret | Throw _ | Exit _ => true
  | _ => false
  end.

(** Run [p] from state [s] until it ends or every branch of it waits for
    a request; also returns the forked promises that are still waiting. *)
Fixpoint advance (p : prog) (s : server) : server * prog * list prog :=
  match p with
  | Ret | Throw _ | Await _ _ => (s, p, [])
  | Exit c => (do_exit c s, p, [])
  | Read k => advance (k s) s
  | Write f k => advance k (f s)
  | AllSettled ps k =>
      let '(s1, ps1, forked) :=
        (fix advance_all (ps : list prog) (s : server)
           : server * list prog * list prog :=
           match ps with
           | [] => (s, [], [])
           | p :: rest =>
               let '(s1, p1, f1) := advance p s in
               let '(s2, rest1, f2) := advance_all rest s1 in
               (s2, p1 :: rest1, (f1 ++ f2)%list)
           end) ps s in
      if forallb finished ps1
      then let '(s2, k1, f2) := advance k s1 in (s2, k1, (forked ++ f2)%list)
      else (s1, AllSettled ps1 k, forked)
  | Fork c k =>
      let '(s1, c1, f1) := advance c s in
      let '(s2, k1, f2) := advance k s1 in
      (s2, k1, (f1 ++ (if finished c1 then [] else [c1]) ++ f2)%list)
  end.

(** The promises given to [Promise.allSettled], each run in turn up to
    its first pending [await] (the local function of [advance], by name). *)
Fixpoint advance_all (ps : list prog) (s : server)
  : server * list prog * list prog :=
  match ps with
  | [] => (s, [], [])
  | p :: rest =>
      let '(s1, p1, f1) := advance p s in
      let '(s2, rest1, f2) := advance_all rest s1 in
      (s2, p1 :: rest1, (f1 ++ f2)%list)
  end.

(** The requests a suspended program waits for, left to right. *)
Fixpoint pending (p : prog) : list io :=
  match p with
  | Await op _ => [op]
  | AllSettled ps _ => flat_map pending ps
  | _ => []
  end.

(** Deliver [r] to the first [await] of [p] that waits for a request named
    [what]; [None] when there is none. *)
Fixpoint resume (what : opname) (r : settle) (p : prog) : option prog :=
  match p with
  | Await op k => if opname_eqb (name_of op) what then Some (k r) else None
  | AllSettled ps k =>
      match
        (fix resume_first (ps : list prog) : option (list prog) :=
           match ps with
           | [] => None
           | p :: rest =>
               match resume what r p with
               | Some p1 => Some (p1 :: rest)
               | None =>
                   match resume_first rest with
                   | Some rest1 => Some (p :: rest1)
                   | None => None
                   end
               end
           end) ps
      with
      | Some ps1 => Some (AllSettled ps1 k)
      | None => None
      end
  | _ => None
  end.

(* ================================================================= *)
(** ** services/clickhouseService.js *)

Module ClickHouseService.

Definition not_connected : exn :=
  BuildError "ClickHouse client not connected" CLICKHOUSE_ERROR NoDetails.

Definition createTablesIfNotExist : prog :=
  try_catch
    (call (ChExec "log_events");;
     call (ChExec "build_metrics");;
     logger_info "ClickHouse tables verified")
    (fun error =>
       Throw (BuildError "Failed to create ClickHouse tables"
                CLICKHOUSE_ERROR (OriginalError (e_message error)))).

Definition initialize : prog :=
  try_catch
    (call ChPing;;
     act (set_isConnected true);;
     logger_info "ClickHouse connection established";;
     createTablesIfNotExist)
    (fun error =>
       Throw (BuildError "Failed to initialize ClickHouse connection"
                CLICKHOUSE_ERROR (OriginalError (e_message error)))).

Definition insertBuildLog (deploymentId log level : string) : prog :=
  Read (fun s =>
    if negb (isConnected s) then Throw not_connected
    else
      try_catch
        (call (ChInsert "log_events"
                 (LogRow deploymentId log level (clock s))))
        (fun error =>
           (* Don't throw here to prevent build process interruption *)
           logger_error "Failed to insert build log:" (Some error))).

Definition recordBuildMetrics (deploymentId projectUri : string)
    (startTime : option Z) (endTime : Z) (status errorMessage : string)
  : prog :=
  Read (fun s =>
    if negb (isConnected s) then Throw not_connected
    else
      (* Math.floor((endTime - startTime) / 1000); null counts as 0 *)
      let durationSeconds := ((endTime - default 0 startTime) / 1000)%Z in
      try_catch
        (call (ChInsert "build_metrics"
                 (MetricsRow deploymentId projectUri startTime endTime
                    durationSeconds status errorMessage (clock s))))
        (fun error =>
           (* Don't throw here to prevent build process interruption *)
           logger_error "Failed to record build metrics:" (Some error))).

Definition disconnect : prog :=
  try_catch
    (Read (fun s =>
       if isConnected s
       then call ChClose;;
            act (set_isConnected false);;
            logger_info "ClickHouse connection closed"
       else Ret))
    (fun error =>
       logger_error "Error disconnecting from ClickHouse:" (Some error)).

End ClickHouseService.

(* ================================================================= *)
(** ** services/kafkaService.js *)

Module KafkaService.

Definition connect : prog :=
  try_catch
    (act (set_producer true);;
     call ProducerConnect)
    (fun error =>
       logger_error "Failed to connect to Kafka:" (Some error);;
       Throw error).

Definition publishLog (log : string) : prog :=
  Read (fun s =>
    if negb (producer s) then Throw (Error "Kafka producer not initialized")
    else
      try_catch
        (call (ProducerSend log))
        (fun error =>
           logger_error "Failed to publish log:" (Some error);;
           Throw error)).

Definition disconnect : prog :=
  Read (fun s => if producer s then call ProducerDisconnect else Ret).

End KafkaService.

(* ================================================================= *)
(** ** utils/errorHandler.js: handleError, gracefulShutdown *)

Module ErrorHandlerAsync.

(** The [errorDetails] object that is logged (timestamp and stack left
    out). *)
Definition errorDetails (error : exn) : exn :=
  mkError (e_name error) (e_message error)
    (Some (or_else (e_code error) UNKNOWN_ERROR)) NoDetails.

(** [handleError(error, logger, kafkaService)]: the publication is not
    awaited. *)
Definition handleError (error : exn) : prog :=
  logger_error "Error occurred:" (Some (errorDetails error));;
  Fork
    (try_catch
       (KafkaService.publishLog ("Error: " +:+ e_message error))
       (fun err =>
          logger_error "Failed to publish error to Kafka:" (Some err)))
    Ret.

(** [gracefulShutdown(services, logger)]; a service is given as its
    [disconnect] (or [cleanup]) method, [None] when it is absent. *)
Definition gracefulShutdown (kafka clickhouse cleanup : option prog)
  : prog :=
  logger_info "Starting graceful shutdown...";;
  let shutdownPromises :=
    (match kafka with
     | Some disconnect =>
         [try_catch disconnect (fun err =>
            logger_error "Error disconnecting Kafka:" (Some err))]
     | None => []
     end ++
     match clickhouse with
     | Some disconnect =>
         [try_catch disconnect (fun err =>
            logger_error "Error disconnecting ClickHouse:" (Some err))]
     | None => []
     end ++
     match cleanup with
     | Some cleanup =>
         [try_catch cleanup (fun err =>
            logger_error "Error during cleanup:" (Some err))]
     | None => []
     end)%list in
  try_catch
    (AllSettled shutdownPromises
       (logger_info "Graceful shutdown completed"))
    (fun error =>
       logger_error "Error during graceful shutdown:" (Some error)).

End ErrorHandlerAsync.

(* ================================================================= *)
(** ** server.js: BuildServer (the Job Controller and Shutdown Coordinator) *)

Module BuildServer.

(** [config.project.*]; [validateConfig] has checked that they are set. *)
Definition project_uri (s : server) : string :=
  default "" (env s !! "PROJECT_URI").
Definition project_deploymentId (s : server) : string :=
  default "" (env s !! "DEPLOYMENT_ID").
Definition project_installCommand (s : server) : string :=
  default "" (env s !! "PROJECT_INSTALL_COMMAND").
Definition project_buildCommand (s : server) : string :=
  default "" (env s !! "PROJECT_BUILD_COMMAND").
Definition project_rootDir (s : server) : string :=
  default "" (env s !! "PROJECT_ROOT_DIR").

(** [path.join(__dirname, '../output')], with the [WORKDIR] of the
    Dockerfile. *)
Definition outputDir : string := "/app/output".

Definition rmSync : prog :=
  Read (fun s =>
    match fs_error s with
    | Some m => Throw (Error m)
    | None => act (fun s => emit RmDir (set_outputDir_exists false s))
    end).

Definition mkdirSync : prog :=
  Read (fun s =>
    match fs_error s with
    | Some m => Throw (Error m)
    | None => act (fun s => emit MkDir (set_outputDir_exists true s))
    end).

Definition prepareOutputDirectory : prog :=
  try_catch
    (Read (fun s => if outputDir_exists s then rmSync else Ret);;
     mkdirSync;;
     logger_info "Output directory prepared")
    (fun error =>
       Throw (BuildError "Failed to prepare output directory"
                INITIALIZATION_FAILED (OriginalError (e_message error)))).

(** [executeBuildProcess]: the child is started and kept in
    [this.buildProcess]; the promise it returns is settled by the
    listeners of [Runner]. *)
Definition executeBuildProcess : prog :=
  Read (fun s =>
    let command :=
      "cd " +:+ outputDir +:+ " && " +:+ project_installCommand s
        +:+ " && " +:+ project_buildCommand s in
    Write (fun s => emit (Spawn command (project_rootDir s))
                      (set_buildProcess (Some false) s))
      (Await BuildRun (fun r => match r with
                                | Fulfilled => Ret
                                | Rejected e => Throw e
                                end))).

(** [getProjectEnvironmentVariables()]: the entries of [process.env]
    whose key starts with [PROJECT_ENVIRONMENT_], copied one by one into
    a new object. *)
Definition getProjectEnvironmentVariables (env : environment) : environment :=
  fold_left
    (fun (envVars : environment) (entry : string * string) =>
       <[fst entry := snd entry]> envVars)
    (List.filter (fun entry => String.prefix "PROJECT_ENVIRONMENT_" (fst entry))
       (map_to_list env))
    ∅.

(** The [env] option [executeBuildProcess] gives to [exec]:
    [{ ...process.env, ...this.getProjectEnvironmentVariables() }]; of two
    properties with the same key the one spread last wins. *)
Definition exec_env (env : environment) : environment :=
  getProjectEnvironmentVariables env ∪ env.

(** [uploadArtifacts]: the uploads are started and their [Promise.all],
    which [Uploader] settles, is awaited. *)
Definition uploadArtifacts : prog :=
  Read (fun s =>
    if negb (outputDir_exists s && dist_built s)
    then Throw (BuildError "Build directory not found" BUILD_FAILED NoDetails)
    else Await UploadAll (fun r => match r with
                                   | Fulfilled => Ret
                                   | Rejected e => Throw e
                                   end)).

(** What [cleanup] does once it has taken the latch. *)
Definition teardown (error : option exn) : prog :=
  Read (fun s =>
    let buildEndTime := clock s in
    let status := match error with Some _ => "FAILED" | None => "SUCCESS" end in
    let errorMessage :=
      match error with Some e => e_message e | None => "" end in
    try_catch
      ((* Kill build process if it's still running *)
       Read (fun s =>
         match buildProcess s with
         | Some false => act (fun s => emit Kill (set_buildProcess (Some true) s))
         | _ => Ret
         end);;
       (* Record build metrics *)
       Read (fun s =>
         ClickHouseService.recordBuildMetrics
           (project_deploymentId s) (project_uri s)
           (buildStartTime s) buildEndTime status errorMessage);;
       (* Graceful shutdown *)
       ErrorHandlerAsync.gracefulShutdown
         (Some KafkaService.disconnect)
         (Some ClickHouseService.disconnect)
         (Some (Read (fun s => if outputDir_exists s then rmSync else Ret))))
      (fun cleanupError =>
         logger_error "Cleanup failed:" (Some cleanupError))).

Definition cleanup (error : option exn) : prog :=
  Read (fun s =>
    if isExiting s then Ret
    else Write (set_isExiting true) (teardown error)).

Definition runBuild : prog :=
  try_catch
    (prepareOutputDirectory;;
     KafkaService.publishLog "Starting build process...";;
     Read (fun s =>
       ClickHouseService.insertBuildLog (project_deploymentId s)
         "Build process started" "INFO");;
     executeBuildProcess;;
     uploadArtifacts;;
     KafkaService.publishLog "Build completed successfully";;
     Read (fun s =>
       ClickHouseService.insertBuildLog (project_deploymentId s)
         "Build completed successfully" "INFO");;
     cleanup None;;
     Exit 0)
    (fun error =>
       let errorMessage := "Build failed: " +:+ e_message error in
       KafkaService.publishLog errorMessage;;
       Read (fun s =>
         ClickHouseService.insertBuildLog (project_deploymentId s)
           errorMessage "ERROR");;
       cleanup (Some error);;
       Exit 1).

(** The listeners [setupCleanup] adds with [process.on]. *)
Definition on_signal (sig : string) : prog :=
  logger_info ("Received " +:+ sig);;
  cleanup None;;
  Exit 0.

Definition on_uncaughtException (error : exn) : prog :=
  logger_error "Uncaught exception:" (Some error);;
  cleanup (Some error);;
  Exit 1.

Definition on_unhandledRejection (error : exn) : prog :=
  logger_error "Unhandled rejection:" (Some error);;
  cleanup (Some error);;
  Exit 1.

Definition setupCleanup : prog := act (set_listening true).

Definition initialize : prog :=
  try_catch
    (Read (fun s =>
       match ErrorHandler.validateEnvironment (env s) initialize_required with
       | Thrown e => Throw e
       | Normal _ => Ret
       end);;
     logger_info "Initializing services...";;
     ClickHouseService.initialize;;
     KafkaService.connect;;
     Read (fun s => act (set_buildStartTime (Some (clock s))));;
     setupCleanup;;
     runBuild)
    (fun error =>
       ErrorHandlerAsync.handleError error;;
       cleanup (Some error);;
       Exit 1).

(** The last statement of server.js. *)
Definition main : prog :=
  try_catch initialize
    (fun error =>
       logger_error "Fatal error:" (Some error);;
       Exit 1).

End BuildServer.

(* ================================================================= *)
(** ** The process: tasks, the event loop and schedules *)

(** The suspended asynchronous functions of the process and the state they
    share. *)
Record system : Type := mkSystem {
  srv : server;
  tasks : list prog
}.

(** What the event loop delivers. *)
Inductive event : Type :=
| Settle (tid : nat) (what : opname) (r : settle)
      (* a request that task [tid] waits for has settled *)
| Signal (sig : string)                  (* SIGTERM or SIGINT *)
| UncaughtException (e : exn)
| UnhandledRejection (e : exn)
| Elapse (ms : Z).                       (* time passes *)


(** A new task: it runs at once, up to its first pending [await]. *)
Definition start_task (p : prog) (sys : system) : system :=
  let '(s1, p1, forked) := advance p (srv sys) in
  mkSystem s1 (tasks sys ++ [p1] ++ forked).

(** One turn of the event loop. Once the process has exited nothing runs. *)
Definition loop_step (sys : system) (ev : event) : system :=
  match exited (srv sys) with
  | Some _ => sys
  | None =>
      match ev with
      | Settle tid what r =>
          match tasks sys !! tid with
          | Some p =>
              match resume what r p with
              | Some p1 =>
                  let '(s2, p2, forked) := advance p1 (srv sys) in
                  mkSystem s2 (<[tid := p2]> (tasks sys) ++ forked)
              | None => sys
              end
          | None => sys
          end
      | Signal sig =>
          if listening (srv sys)
          then start_task (BuildServer.on_signal sig) sys
          else mkSystem (set_exited (Some (Signaled sig)) (srv sys)) (tasks sys)
      | UncaughtException e =>
          if listening (srv sys)
          then start_task (BuildServer.on_uncaughtException e) sys
          else mkSystem (set_exited (Some (Exited 1)) (srv sys)) (tasks sys)
      | UnhandledRejection e =>
          if listening (srv sys)
          then start_task (BuildServer.on_unhandledRejection e) sys
          else mkSystem (set_exited (Some (Exited 1)) (srv sys)) (tasks sys)
      | Elapse ms => mkSystem (set_clock (clock (srv sys) + ms) (srv sys)) (tasks sys)
      end
  end.

Definition run_loop (evs : list event) (sys : system) : system :=
  fold_left loop_step evs sys.

(** The state of a fresh process. *)
Definition fresh (e : environment) (now : Z) (outputDir_exists dist_built : bool)
    (fs_error : option string) : server :=
  mkServer e false None None false false false now outputDir_exists dist_built
    fs_error [] None.

(** [node src/server.js]: loading server.js loads config/config.js, which
    validates the configuration and lets an exception escape when a field
    is missing (the process then ends with code 1); otherwise the last
    statement of server.js starts [initialize()]. *)
Definition boot (s : server) : system :=
  match Config.validateConfig (env s) with
  | Thrown e =>
      mkSystem (do_exit 1 (emit (Uncaught e) s)) []
  | Normal _ => start_task BuildServer.main (mkSystem s [])
  end.

(** A single asynchronous call run on its own: the requests it waits for
    settle one after the other, in the order of [pending], as [rs] says;
    when [rs] is used up the call is left where it waits. *)
Fixpoint complete (rs : list settle) (p : prog) (s : server) : server * prog :=
  let '(s1, p1, _) := advance p s in
  match rs with
  | [] => (s1, p1)
  | r :: rest =>
      match pending p1 with
      | op :: _ =>
          match resume (name_of op) r p1 with
          | Some p2 => complete rest p2 s1
          | None => (s1, p1)
          end
      | [] => (s1, p1)
      end
  end.




(** No exception leaves the program: whenever it ends, it ends normally
    or by [process.exit].  What the promises under [Promise.allSettled]
    and a forked promise throw stays with them. *)
Inductive never_throws : prog -> Prop :=
| nt_ret : never_throws Ret
| nt_exit (code : Z) : never_throws (Exit code)
| nt_read (k : server -> prog) :
    (forall s, never_throws (k s)) -> never_throws (Read k)
| nt_write (f : server -> server) (k : prog) :
    never_throws k -> never_throws (Write f k)
| nt_await (op : io) (k : settle -> prog) :
    (forall r, never_throws (k r)) -> never_throws (Await op k)
| nt_all (ps : list prog) (k : prog) :
    never_throws k -> never_throws (AllSettled ps k)
| nt_fork (c k : prog) :
    never_throws k -> never_throws (Fork c k).

(** No assignment of the program, nor of the promises it starts, takes the
    latch [isExiting] back once it is set. *)
Inductive keeps_latch : prog -> Prop :=
| kl_ret : keeps_latch Ret
| kl_throw (e : exn) : keeps_latch (Throw e)
| kl_exit (code : Z) : keeps_latch (Exit code)
| kl_read (k : server -> prog) :
    (forall s, keeps_latch (k s)) -> keeps_latch (Read k)
| kl_write (f : server -> server) (k : prog) :
    (forall s, isExiting s = true -> isExiting (f s) = true) ->
    keeps_latch k -> keeps_latch (Write f k)
| kl_await (op : io) (k : settle -> prog) :
    (forall r, keeps_latch (k r)) -> keeps_latch (Await op k)
| kl_all (ps : list prog) (k : prog) :
    Forall keeps_latch ps -> keeps_latch k -> keeps_latch (AllSettled ps k)
| kl_fork (c k : prog) :
    keeps_latch c -> keeps_latch k -> keeps_latch (Fork c k).

(** The local function of [resume], by name. *)
Definition resume_first (what : opname) (r : settle)
  : list prog -> option (list prog) :=
  fix resume_first (ps : list prog) : option (list prog) :=
    match ps with
    | [] => None
    | p :: rest =>
        match resume what r p with
        | Some p1 => Some (p1 :: rest)
        | None =>
            match resume_first rest with
            | Some rest1 => Some (p :: rest1)
            | None => None
            end
        end
    end.

(** The row [cleanup] records for a job in state [s]. *)
Definition metrics_request (s : server) (status errorMessage : string) : io :=
  ChInsert "build_metrics"
    (MetricsRow (BuildServer.project_deploymentId s) (BuildServer.project_uri s)
       (buildStartTime s) (clock s)
       ((clock s - default 0 (buildStartTime s)) / 1000)
       status errorMessage (clock s)).

(* ================================================================= *)
(** ** A sample environment *)

Definition env_of (l : list (string * string)) : environment := list_to_map l.

Definition full_env : list (string * string) :=
  [ ("AWS_REGION", "eu-west-1"); ("AWS_ACCESS_KEY_ID", "AKIA");
    ("AWS_SECRET_ACCESS_KEY", "secret"); ("S3_BUCKET_NAME", "bucket");
    ("PROJECT_URI", "demo"); ("DEPLOYMENT_ID", "d1");
    ("PROJECT_INSTALL_COMMAND", "npm install");
    ("PROJECT_BUILD_COMMAND", "npm run build");
    ("PROJECT_ROOT_DIR", "/app") ].

(* ================================================================= *)
(** ** The phases of a job *)







(* ================================================================= *)
(** * Properties *)

(* ----------------------------------------------------------------- *)
(** ** Configuration validation *)

Lemma js_truthy_of_env (env : environment) (var : string) :
  js_truthy (of_env env var) = truthy (env !! var).
Proof. unfold of_env. destruct (env !! var); reflexivity. Qed.

(** [validateConfig] is a cascade over eight variables. *)
Lemma validateConfig_cascade (env : environment) :
  Config.validateConfig env =
    if negb (truthy (env !! "AWS_REGION"))
    then Thrown (Error "Missing required configuration: aws.region")
    else if negb (truthy (env !! "AWS_ACCESS_KEY_ID"))
    then Thrown (Error "Missing required configuration: aws.accessKeyId")
    else if negb (truthy (env !! "AWS_SECRET_ACCESS_KEY"))
    then Thrown (Error "Missing required configuration: aws.secretAccessKey")
    else if negb (truthy (env !! "S3_BUCKET_NAME"))
    then Thrown (Error "Missing required configuration: aws.s3BucketName")
    else if negb (truthy (env !! "PROJECT_URI"))
    then Thrown (Error "Missing required configuration: project.uri")
    else if negb (truthy (env !! "DEPLOYMENT_ID"))
    then Thrown (Error "Missing required configuration: project.deploymentId")
    else if negb (truthy (env !! "PROJECT_INSTALL_COMMAND"))
    then Thrown (Error "Missing required configuration: project.installCommand")
    else if negb (truthy (env !! "PROJECT_BUILD_COMMAND"))
    then Thrown (Error "Missing required configuration: project.buildCommand")
    else Normal tt.
Proof.
  rewrite <- !js_truthy_of_env. reflexivity.
Qed.

Lemma filter_In_required (env : environment) (v : string) :
  In v (List.filter (fun v => negb (truthy (env !! v))) initialize_required)
  <-> In v initialize_required /\ truthy (env !! v) = false.
Proof.
  rewrite filter_In. rewrite negb_true_iff. reflexivity.
Qed.

(** C2, as stated, fails: with the project URI and the deployment id both
    absent, the process never reaches [initialize()]; loading
    config/config.js throws a plain [Error] (no [VALIDATION_ERROR] code)
    naming [project.uri] alone, and the process ends with code 1. *)
Lemma config_load_names_first_missing_only :
  let env := delete "DEPLOYMENT_ID" (delete "PROJECT_URI" (env_of full_env)) in
  List.filter (fun v => negb (truthy (env !! v))) initialize_required
    = ["PROJECT_URI"; "DEPLOYMENT_ID"]
  /\ startup_validation env
       = Thrown (Error "Missing required configuration: project.uri")
  /\ e_code (Error "Missing required configuration: project.uri") = None
  /\ tasks (boot (fresh env 0 true false None)) = []
  /\ exited (srv (boot (fresh env 0 true false None))) = Some (Exited 1).
Proof. vm_compute. repeat split. Qed.

(** C2 (amended). The check [initialize()] starts with,
    [validateEnvironment], throws a [BuildError] with code
    [VALIDATION_ERROR] whose message lists every missing variable of the
    five, in order.  The process however validates its configuration
    when config/config.js is loaded, before [initialize()] is called:
    that check throws a plain [Error] naming the first missing field
    whenever the project URI, the deployment id, the install command or
    the build command is missing, so the validation error of
    [initialize()] is only ever seen listing [PROJECT_ROOT_DIR]. *)
Theorem validateEnvironment_lists_every_missing (env : environment) :
  let missingVars :=
    List.filter (fun v => negb (truthy (env !! v))) initialize_required in
  ErrorHandler.validateEnvironment env initialize_required =
    match missingVars with
    | [] => Normal tt
    | _ => Thrown (BuildError
             ("Missing required environment variables: "
                +:+ String.concat ", " missingVars)
             VALIDATION_ERROR (MissingVars missingVars))
    end
  /\ (forall v, In v missingVars <->
                In v initialize_required /\ truthy (env !! v) = false)
  /\ (forall v,
        In v ["PROJECT_URI"; "DEPLOYMENT_ID"; "PROJECT_INSTALL_COMMAND";
              "PROJECT_BUILD_COMMAND"] ->
        truthy (env !! v) = false ->
        exists field,
          In field Config.requiredFields /\
          startup_validation env
            = Thrown (Error ("Missing required configuration: " +:+ field)))
  /\ (forall e,
        startup_validation env = Thrown e ->
        e_code e = Some VALIDATION_ERROR ->
        missingVars = ["PROJECT_ROOT_DIR"]).
Proof.
  intros missingVars. split; [| split; [| split]].
  - unfold ErrorHandler.validateEnvironment. fold missingVars.
    destruct missingVars; reflexivity.
  - intros v. apply filter_In_required.
  - intros v Hv Hfalse. unfold startup_validation.
    rewrite validateConfig_cascade.
    destruct (truthy (env !! "AWS_REGION"));
      [| eexists; split; [| reflexivity]; simpl; tauto].
    destruct (truthy (env !! "AWS_ACCESS_KEY_ID"));
      [| eexists; split; [| reflexivity]; simpl; tauto].
    destruct (truthy (env !! "AWS_SECRET_ACCESS_KEY"));
      [| eexists; split; [| reflexivity]; simpl; tauto].
    destruct (truthy (env !! "S3_BUCKET_NAME"));
      [| eexists; split; [| reflexivity]; simpl; tauto].
    destruct (truthy (env !! "PROJECT_URI")) eqn:E1;
      [| eexists; split; [| reflexivity]; simpl; tauto].
    destruct (truthy (env !! "DEPLOYMENT_ID")) eqn:E2;
      [| eexists; split; [| reflexivity]; simpl; tauto].
    destruct (truthy (env !! "PROJECT_INSTALL_COMMAND")) eqn:E3;
      [| eexists; split; [| reflexivity]; simpl; tauto].
    destruct (truthy (env !! "PROJECT_BUILD_COMMAND")) eqn:E4;
      [| eexists; split; [| reflexivity]; simpl; tauto].
    exfalso. simpl in Hv.
    destruct Hv as [<- | [<- | [<- | [<- | []]]]]; congruence.
  - intros e He Hcode. unfold startup_validation in He.
    rewrite validateConfig_cascade in He.
    subst missingVars. unfold initialize_required. cbn [List.filter].
    destruct (truthy (env !! "AWS_REGION"));
      [| injection He as <-; discriminate].
    destruct (truthy (env !! "AWS_ACCESS_KEY_ID"));
      [| injection He as <-; discriminate].
    destruct (truthy (env !! "AWS_SECRET_ACCESS_KEY"));
      [| injection He as <-; discriminate].
    destruct (truthy (env !! "S3_BUCKET_NAME"));
      [| injection He as <-; discriminate].
    destruct (truthy (env !! "PROJECT_URI")) eqn:E1;
      [| injection He as <-; discriminate].
    destruct (truthy (env !! "DEPLOYMENT_ID")) eqn:E2;
      [| injection He as <-; discriminate].
    destruct (truthy (env !! "PROJECT_INSTALL_COMMAND")) eqn:E3;
      [| injection He as <-; discriminate].
    destruct (truthy (env !! "PROJECT_BUILD_COMMAND")) eqn:E4;
      [| injection He as <-; discriminate].
    cbn [negb] in He |- *.
    unfold ErrorHandler.validateEnvironment in He.
    unfold initialize_required in He. cbn [List.filter] in He.
    rewrite E1, E2, E3, E4 in He. cbn [negb] in He.
    destruct (truthy (env !! "PROJECT_ROOT_DIR")); [discriminate | reflexivity].
Qed.

(* ----------------------------------------------------------------- *)
(** ** The Subprocess Runner *)

Lemma append_assoc (a b c : string) : (a +:+ b) +:+ c = a +:+ (b +:+ c).
Proof.
  induction a as [| ch a IH]; [reflexivity |].
  change (String ch ((a +:+ b) +:+ c) = String ch (a +:+ (b +:+ c))).
  f_equal. exact IH.
Qed.

Lemma append_empty_r (a : string) : a +:+ "" = a.
Proof.
  induction a as [| ch a IH]; [reflexivity |].
  change (String ch (a +:+ "") = String ch a). f_equal. exact IH.
Qed.

Section RunnerFacts.
Import Runner.

Lemma run_app (a b : list (Z * child_event)) (st : state) :
  run (a ++ b) st = run b (run a st).
Proof. apply fold_left_app. Qed.

(** A settled promise stays as it is. *)
Lemma outcome_final (evs : list (Z * child_event)) (st : state) :
  outcome st <> Pending -> outcome (run evs st) = outcome st.
Proof.
  revert st. induction evs as [| [t ev] evs IH]; intros st Hst; [reflexivity |].
  cbn [run fold_left]. fold (run evs (deliver st (t, ev))).
  assert (Hstep : outcome (deliver st (t, ev)) = outcome st).
  { unfold deliver, fire_due, on_timeout, reject, resolve. cbn [fst snd].
    destruct st as [bo be o bt k f]. cbn in Hst |- *.
    destruct o; [contradiction | |];
      destruct bt as [due |]; try destruct (due <=? t)%Z;
      destruct ev as [d | d | [[| c | c] |] | m]; reflexivity. }
  rewrite IH; rewrite Hstep; auto.
Qed.

Lemma fire_due_outcome_final (t : Z) (st : state) :
  outcome st <> Pending -> outcome (fire_due t st) = outcome st.
Proof.
  intros Hst. unfold fire_due, on_timeout, reject.
  destruct st as [bo be o bt k f]. cbn in Hst |- *.
  destruct bt as [due |]; [destruct (due <=? t)%Z |]; cbn;
    destruct o; try contradiction; reflexivity.
Qed.

Lemma on_event_outcome_final (ev : child_event) (st : state) :
  outcome st <> Pending -> outcome (on_event ev st) = outcome st.
Proof.
  intros Hst. destruct st as [bo be o bt k f]. cbn in Hst.
  destruct o; [contradiction | |];
    destruct ev as [d | d | [[| c | c] |] | m]; reflexivity.
Qed.

Lemma on_event_killed (ev : child_event) (st : state) :
  killed st = true -> killed (on_event ev st) = true.
Proof.
  intros Hst. destruct st as [bo be o bt k f]. cbn in Hst. subst k.
  destruct o; destruct ev as [d | d | [[| c | c] |] | m]; reflexivity.
Qed.

Lemma fire_due_not_resolved (t : Z) (st : state) :
  outcome st <> Resolved -> outcome (fire_due t st) <> Resolved.
Proof.
  intros Hst. unfold fire_due, on_timeout, reject.
  destruct st as [bo be o bt k f]. cbn in Hst |- *.
  destruct bt as [due |]; [destruct (due <=? t)%Z |];
    destruct o; cbn; congruence.
Qed.

(** There is one [kill] in [executeBuildProcess]: nothing undoes it. *)
Lemma killed_final (evs : list (Z * child_event)) (st : state) :
  killed st = true -> killed (run evs st) = true.
Proof.
  revert st. induction evs as [| [t ev] evs IH]; intros st Hst; [assumption |].
  cbn [run fold_left]. fold (run evs (deliver st (t, ev))). apply IH.
  unfold deliver, fire_due, on_timeout, reject, resolve. cbn [fst snd].
  destruct st as [bo be o bt k f]. cbn in Hst |- *. subst k.
  destruct o; destruct bt as [due |]; try destruct (due <=? t)%Z;
    destruct ev as [d | d | [[| c | c] |] | m]; reflexivity.
Qed.

(** With no timer armed, time and events never kill the child and never
    arm a timer. *)
Lemma disarmed_final (evs : list (Z * child_event)) (st : state) :
  buildTimeout st = None ->
  buildTimeout (run evs st) = None /\ killed (run evs st) = killed st.
Proof.
  revert st. induction evs as [| [t ev] evs IH]; intros st Hst; [auto |].
  cbn [run fold_left]. fold (run evs (deliver st (t, ev))).
  assert (Hstep : buildTimeout (deliver st (t, ev)) = None
                  /\ killed (deliver st (t, ev)) = killed st).
  { unfold deliver, fire_due, reject, resolve. cbn [fst snd].
    destruct st as [bo be o bt k f]. cbn in Hst |- *. subst bt.
    destruct o; destruct ev as [d | d | [[| c | c] |] | m]; split; reflexivity. }
  destruct Hstep as [H1 H2]. destruct (IH _ H1) as [H3 H4].
  split; [assumption | congruence].
Qed.

(** While the child only writes output and the timer is not due, the
    promise stays pending, the timer armed, and stderr accumulates. *)
Lemma output_phase (due : Z) (pre : list (Z * child_event)) (st : state) :
  Forall (fun tev => is_data (snd tev) = true /\ fst tev < due) pre ->
  buildTimeout st = Some due ->
  outcome st = Pending ->
  outcome (run pre st) = Pending
  /\ buildTimeout (run pre st) = Some due
  /\ killed (run pre st) = killed st
  /\ buildErrors (run pre st) = buildErrors st +:+ stderr_text pre.
Proof.
  intros Hpre. revert st.
  induction Hpre as [| [t ev] pre [Hdata Ht] _ IH]; intros st Hbt Ho.
  - cbn. rewrite append_empty_r. auto.
  - cbn [run fold_left]. fold (run pre (deliver st (t, ev))).
    cbn [fst snd] in Hdata, Ht.
    assert (Hfire : fire_due t st = st).
    { unfold fire_due. rewrite Hbt.
      destruct (Z.leb_spec due t); [lia | reflexivity]. }
    unfold deliver. cbn [fst snd]. rewrite Hfire.
    destruct ev as [d | d | c | m]; try discriminate; cbn [on_event].
    + destruct (IH (on_stdout d st)) as (H1 & H2 & H3 & H4); try assumption.
      cbn [stderr_text]. auto.
    + destruct (IH (on_stderr d st)) as (H1 & H2 & H3 & H4); try assumption.
      cbn [stderr_text]. rewrite H4. cbn [on_stderr buildErrors].
      rewrite append_assoc. auto.
Qed.

(** Only the ['close'] listener resolves the promise, and only on code 0. *)
Lemma deliver_not_resolved (t : Z) (ev : child_event) (st : state) :
  outcome st <> Resolved ->
  ev <> Close (Some 0) ->
  outcome (deliver st (t, ev)) <> Resolved.
Proof.
  intros Hst Hev.
  unfold deliver, fire_due, on_timeout, reject, resolve. cbn [fst snd].
  destruct st as [bo be o bt k f]. cbn in Hst |- *.
  destruct o; try congruence;
    destruct bt as [due |]; try destruct (due <=? t)%Z;
    destruct ev as [d | d | [[| c | c] |] | m]; cbn; congruence.
Qed.

Lemma resolved_only_by_close_zero (evs : list (Z * child_event)) (st : state) :
  outcome st <> Resolved ->
  outcome (run evs st) = Resolved ->
  exists t, In (t, Close (Some 0)) evs.
Proof.
  revert st. induction evs as [| [t ev] evs IH]; intros st Hst Hres.
  - cbn in Hres. contradiction.
  - cbn [run fold_left] in Hres. fold (run evs (deliver st (t, ev))) in Hres.
    assert (Hdec : ev = Close (Some 0) \/ ev <> Close (Some 0)).
    { destruct ev as [d | d | [[| c | c] |] | m];
        try (right; discriminate). left; reflexivity. }
    destruct Hdec as [-> | Hne].
    + exists t. left. reflexivity.
    + destruct (IH _ (deliver_not_resolved t ev st Hst Hne) Hres) as [t' Ht'].
      exists t'. right. exact Ht'.
Qed.

End RunnerFacts.

(** C3. A child that runs to its end before the timeout (it writes output,
    then closes with [code]) settles the promise of [executeBuildProcess]:
    resolved if and only if [code] is 0; otherwise rejected with a
    [BuildError] of code [BUILD_FAILED] that carries the exit code and all
    of the text written to stderr.  Whatever the child does, the promise
    is resolved only if it closed with code 0. *)
Theorem runner_resolves_iff_exit_code_zero
    (now : Z) (pre : list (Z * Runner.child_event)) (t : Z) (code : option Z)
    (t_end : Z) :
  Forall (fun tev => Runner.is_data (snd tev) = true
                     /\ fst tev < now + Runner.timeout_ms) pre ->
  t < now + Runner.timeout_ms ->
  let st := Runner.executeBuildProcess now (pre ++ [(t, Runner.Close code)]) t_end in
  (Runner.outcome st = Resolved <-> code = Some 0)
  /\ (code <> Some 0 ->
      Runner.outcome st =
        RejectedWith
          (BuildError
             ("Build process exited with code " +:+ string_of_code code +:+ nl
                +:+ Runner.stderr_text pre)
             BUILD_FAILED
             (ExitDetails code (Runner.stderr_text pre))))
  /\ (forall evs t_end',
        Runner.outcome (Runner.executeBuildProcess now evs t_end') = Resolved ->
        exists t0, In (t0, Runner.Close (Some 0)) evs).
Proof.
  intros Hpre Ht st.
  destruct (output_phase (now + Runner.timeout_ms) pre (Runner.start now) Hpre
              eq_refl eq_refl) as (Ho & Hbt & Hk & Hbe).
  cbn [Runner.start Runner.buildErrors] in Hbe. cbn [String.append] in Hbe.
  assert (Hclose : Runner.outcome st =
            match code with
            | Some 0 => Resolved
            | _ => RejectedWith (Runner.exit_error code (Runner.stderr_text pre))
            end).
  { subst st. unfold Runner.executeBuildProcess. rewrite run_app.
    set (s1 := Runner.run pre (Runner.start now)) in *.
    cbn [Runner.run fold_left]. unfold Runner.deliver. cbn [fst snd].
    assert (Hfire : Runner.fire_due t s1 = s1).
    { unfold Runner.fire_due. rewrite Hbt.
      destruct (Z.leb_spec (now + Runner.timeout_ms) t); [lia | reflexivity]. }
    rewrite Hfire. cbn [Runner.on_event].
    unfold Runner.fire_due, Runner.on_close, Runner.clearTimeout.
    cbn [Runner.buildTimeout].
    unfold Runner.resolve, Runner.reject. rewrite Ho, Hbe.
    destruct code as [[| c | c] |]; reflexivity. }
  split; [| split].
  - rewrite Hclose. destruct code as [[| c | c] |]; split;
      intros H; try reflexivity; try discriminate.
  - intros Hne. rewrite Hclose.
    destruct code as [[| c | c] |]; try reflexivity. contradiction.
  - intros evs t_end' Hres. unfold Runner.executeBuildProcess in Hres.
    apply (resolved_only_by_close_zero evs (Runner.start now)).
    + discriminate.
    + destruct (Runner.outcome (Runner.run evs (Runner.start now))) eqn:E;
        [| reflexivity |];
        exfalso; revert Hres; apply fire_due_not_resolved; rewrite E;
        discriminate.
Qed.

Lemma runner_resolves_iff_exit_code_zero_witness :
  let pre := [(10, Runner.StdoutData "compiling"); (20, Runner.StderrData "boom")] in
  Forall (fun tev => Runner.is_data (snd tev) = true
                     /\ fst tev < 0 + Runner.timeout_ms) pre
  /\ 30 < 0 + Runner.timeout_ms
  /\ Runner.outcome
       (Runner.executeBuildProcess 0 (pre ++ [(30, Runner.Close (Some 1))]) 40)
     = RejectedWith
         (BuildError ("Build process exited with code 1" +:+ nl +:+ "boom")
            BUILD_FAILED (ExitDetails (Some 1) "boom")).
Proof.
  intros pre.
  assert (Hpre : Forall (fun tev => Runner.is_data (snd tev) = true
                                    /\ fst tev < 0 + Runner.timeout_ms) pre).
  { repeat constructor. }
  assert (Ht : 30 < 0 + Runner.timeout_ms) by reflexivity.
  split; [exact Hpre | split; [exact Ht |]].
  apply (proj1 (proj2 (runner_resolves_iff_exit_code_zero 0 pre 30 (Some 1) 40
                          Hpre Ht))).
  discriminate.
Defined.

(** C4. The timer is armed for 30 minutes.  A child that has only written
    output by then is killed when the timer fires, and the promise is
    rejected with a [BuildError] of code [BUILD_FAILED] whose details are
    [{ timeout: true }]; nothing that happens later changes that.  A
    ['close'] clears the timer: once the child has closed no timer is
    armed, and when it closes before the timer is due the timer callback
    never runs (the child is never killed by it), however much time
    passes. *)
Theorem runner_timeout_kills_and_close_clears
    (now : Z) (pre post : list (Z * Runner.child_event)) (t_end : Z) :
  Forall (fun tev => Runner.is_data (snd tev) = true
                     /\ fst tev < now + Runner.timeout_ms) pre ->
  Forall (fun tev => now + Runner.timeout_ms <= fst tev) post ->
  now + Runner.timeout_ms <= t_end ->
  let st := Runner.executeBuildProcess now (pre ++ post) t_end in
  Runner.timeout_ms = 30 * 60 * 1000
  /\ Runner.killed st = true
  /\ Runner.outcome st
     = RejectedWith (BuildError "Build process timed out" BUILD_FAILED
                       TimeoutDetails)
  /\ (forall evs t code evs' t_end',
        Runner.buildTimeout
          (Runner.executeBuildProcess now (evs ++ (t, Runner.Close code) :: evs')
             t_end') = None)
  /\ (forall t code evs' t_end',
        t < now + Runner.timeout_ms ->
        Runner.killed
          (Runner.executeBuildProcess now (pre ++ (t, Runner.Close code) :: evs')
             t_end') = false).
Proof.
  intros Hpre Hpost Hend st.
  destruct (output_phase (now + Runner.timeout_ms) pre (Runner.start now) Hpre
              eq_refl eq_refl) as (Ho & Hbt & Hk & Hbe).
  set (s1 := Runner.run pre (Runner.start now)) in *.
  cbn [Runner.start Runner.killed] in Hk.
  assert (Hfired : forall t, now + Runner.timeout_ms <= t ->
            Runner.killed (Runner.fire_due t s1) = true
            /\ Runner.outcome (Runner.fire_due t s1)
               = RejectedWith Runner.timeout_error).
  { intros t Ht. unfold Runner.fire_due. rewrite Hbt.
    destruct (Z.leb_spec (now + Runner.timeout_ms) t); [| lia].
    unfold Runner.on_timeout, Runner.reject. cbn. rewrite Ho. cbn. auto. }
  split; [reflexivity |].
  assert (Hst : Runner.killed st = true
                /\ Runner.outcome st = RejectedWith Runner.timeout_error).
  { subst st. unfold Runner.executeBuildProcess. rewrite run_app. fold s1.
    destruct post as [| [t ev] post].
    - cbn [Runner.run fold_left]. apply Hfired. exact Hend.
    - inversion Hpost as [| x l Ht Hrest]; subst. cbn [fst] in Ht.
      cbn [Runner.run fold_left]. fold (Runner.run post (Runner.deliver s1 (t, ev))).
      destruct (Hfired t Ht) as [Hk1 Ho1].
      assert (Hk2 : Runner.killed (Runner.deliver s1 (t, ev)) = true).
      { unfold Runner.deliver. cbn [fst snd]. apply on_event_killed. exact Hk1. }
      assert (Ho2 : Runner.outcome (Runner.deliver s1 (t, ev))
                    = RejectedWith Runner.timeout_error).
      { unfold Runner.deliver. cbn [fst snd].
        rewrite on_event_outcome_final; rewrite Ho1; [reflexivity | discriminate]. }
      split.
      + assert (Hk3 := killed_final post _ Hk2).
        revert Hk3. generalize (Runner.run post (Runner.deliver s1 (t, ev))).
        intros s Hs. unfold Runner.fire_due, Runner.on_timeout, Runner.reject.
        destruct s as [bo be o bt k f]. cbn in Hs |- *. subst k.
        destruct bt as [due |]; [destruct (due <=? t_end)%Z |];
          destruct o; reflexivity.
      + rewrite fire_due_outcome_final;
          rewrite outcome_final; rewrite ?Ho2; try discriminate. reflexivity. }
  destruct Hst as [Hk' Ho']. split; [exact Hk' |]. split; [exact Ho' |].
  split.
  - intros evs t code evs' t_end'. unfold Runner.executeBuildProcess.
    rewrite run_app. cbn [Runner.run fold_left].
    set (s2 := Runner.deliver _ (t, Runner.Close code)).
    assert (H2 : Runner.buildTimeout s2 = None) by reflexivity.
    destruct (disarmed_final evs' s2 H2) as [H3 _].
    unfold Runner.fire_due. fold (Runner.run evs' s2). rewrite H3. exact H3.
  - intros t code evs' t_end' Ht. unfold Runner.executeBuildProcess.
    rewrite run_app. fold s1. cbn [Runner.run fold_left].
    set (s2 := Runner.deliver s1 (t, Runner.Close code)).
    assert (H2 : Runner.buildTimeout s2 = None) by reflexivity.
    assert (Hk2 : Runner.killed s2 = false).
    { subst s2. unfold Runner.deliver. cbn [fst snd].
      assert (Hfire : Runner.fire_due t s1 = s1).
      { unfold Runner.fire_due. rewrite Hbt.
        destruct (Z.leb_spec (now + Runner.timeout_ms) t); [lia | reflexivity]. }
      rewrite Hfire. cbn [Runner.on_event]. unfold Runner.on_close.
      unfold Runner.clearTimeout. cbn [Runner.killed].
      unfold Runner.resolve, Runner.reject. rewrite Ho.
      destruct code as [[| c | c] |]; exact Hk. }
    destruct (disarmed_final evs' s2 H2) as [H3 H4].
    fold (Runner.run evs' s2). unfold Runner.fire_due. rewrite H3.
    rewrite H4. exact Hk2.
Qed.

Lemma runner_timeout_kills_and_close_clears_witness :
  let pre := [(10, Runner.StdoutData "installing")] in
  let post := [(1800005, Runner.StderrData "late")] in
  Forall (fun tev => Runner.is_data (snd tev) = true
                     /\ fst tev < 0 + Runner.timeout_ms) pre
  /\ Forall (fun tev => 0 + Runner.timeout_ms <= fst tev) post
  /\ 0 + Runner.timeout_ms <= 1800010
  /\ Runner.killed (Runner.executeBuildProcess 0 (pre ++ post) 1800010) = true
  /\ Runner.outcome (Runner.executeBuildProcess 0 (pre ++ post) 1800010)
     = RejectedWith (BuildError "Build process timed out" BUILD_FAILED
                       TimeoutDetails).
Proof.
  intros pre post.
  assert (Hpre : Forall (fun tev => Runner.is_data (snd tev) = true
                                    /\ fst tev < 0 + Runner.timeout_ms) pre).
  { repeat constructor. }
  assert (Hpost : Forall (fun tev => 0 + Runner.timeout_ms <= fst tev) post).
  { repeat constructor. cbn. discriminate. }
  assert (Hend : 0 + Runner.timeout_ms <= 1800010) by (cbn; discriminate).
  pose proof (runner_timeout_kills_and_close_clears 0 pre post 1800010
                Hpre Hpost Hend) as H.
  cbv zeta in H.
  split; [exact Hpre | split; [exact Hpost | split; [exact Hend |]]].
  split; [exact (proj1 (proj2 H)) | exact (proj1 (proj2 (proj2 H)))].
Defined.

(* ----------------------------------------------------------------- *)
(** ** The Artifact Uploader Coordinator *)

Section UploaderFacts.
Import Uploader.

Variable mime_lookup : string -> option string.
Variables s3BucketName uri distDir : string.
Variable isDirectory : string -> bool.

Abbreviation is_file := (Uploader.is_file distDir isDirectory).
Abbreviation command_for :=
  (Uploader.command_for mime_lookup s3BucketName uri distDir).
Abbreviation start_of files :=
  (start mime_lookup s3BucketName uri distDir files isDirectory).

(** The loop starts one upload per entry that is not a directory. *)
Lemma start_uploads_filter (files : list string) :
  start_uploads mime_lookup s3BucketName uri distDir isDirectory files
  = map (fun file => (file, command_for file)) (List.filter is_file files).
Proof.
  induction files as [| file files IH]; [reflexivity |].
  cbn [start_uploads List.filter]. unfold Uploader.is_file at 1.
  destruct (isDirectory (path_join distDir file)); cbn [negb map];
    rewrite IH; reflexivity.
Qed.

Lemma start_fields (files : list string) :
  uploaded_files (start_of files) = List.filter is_file files
  /\ sent (start_of files) = map command_for (List.filter is_file files)
  /\ totalFiles (start_of files) = length (List.filter is_file files)
  /\ uploadPromises (start_of files)
     = map (fun _ => AwaitUpload) (List.filter is_file files)
  /\ uploadedCount (start_of files) = 0%nat
  /\ published (start_of files) = [].
Proof.
  unfold start. cbn. rewrite start_uploads_filter.
  rewrite !map_map. cbn [fst snd]. rewrite map_id.
  repeat split; reflexivity.
Qed.


End UploaderFacts.

Section UploaderSteps.
Import Uploader.

(** A completion touches neither the commands that were sent, nor the
    list of files, nor [totalFiles], nor the number of promises. *)
Lemma step_frame (st : state) (ev : event) :
  sent (step st ev) = sent st
  /\ uploaded_files (step st ev) = uploaded_files st
  /\ totalFiles (step st ev) = totalFiles st
  /\ length (uploadPromises (step st ev)) = length (uploadPromises st).
Proof.
  destruct ev as [i r | i r]; cbn [step];
    destruct (uploadPromises st !! i) as [[| | |] |]; try (repeat split; reflexivity);
    destruct r; unfold fail_task, reject_all, resolve_all, set_task, count_and_publish;
    cbn; repeat match goal with
                | |- context [match all ?s with _ => _ end] => destruct (all s)
                | |- context [if ?b then _ else _] => destruct b
                end; cbn; rewrite ?length_insert; repeat split; reflexivity.
Qed.

Lemma run_frame (evs : list event) (st : state) :
  sent (run evs st) = sent st
  /\ uploaded_files (run evs st) = uploaded_files st
  /\ totalFiles (run evs st) = totalFiles st
  /\ length (uploadPromises (run evs st)) = length (uploadPromises st).
Proof.
  revert st. induction evs as [| ev evs IH]; intros st; [auto |].
  cbn [run fold_left]. fold (run evs (step st ev)).
  destruct (IH (step st ev)) as (H1 & H2 & H3 & H4).
  destruct (step_frame st ev) as (F1 & F2 & F3 & F4).
  repeat split; congruence.
Qed.

End UploaderSteps.


(** The round trip of the specification: the entries [a.js], a directory
    [assets], a file inside it and [b.css].  The directory is not
    uploaded, and the file inside it is stored under its base name. *)
Example upload_keys_of_a_small_tree :
  map Key
    (Uploader.sent
       (Uploader.start (fun _ => None) "bucket" "demo" "/app/output/dist"
          ["a.js"; "assets"; "assets/logo.svg"; "b.css"]
          (fun p => String.eqb p "/app/output/dist/assets")))
  = ["__outputs/demo/a.js"; "__outputs/demo/logo.svg"; "__outputs/demo/b.css"].
Proof. reflexivity. Qed.

Section UploaderCounting.
Import Uploader.









End UploaderCounting.



Section UploaderFailure.
Import Uploader.

Lemma done_lookup (l : list task) (i : nat) (t : task) :
  forallb is_done l = true -> l !! i = Some t -> t = Done.
Proof.
  revert i. induction l as [| x l IH]; intros i Hall Hi; [discriminate |].
  cbn in Hall. apply andb_true_iff in Hall. destruct Hall as [Hx Hl].
  destruct i as [| i]; cbn in Hi.
  - injection Hi as <-. destruct x; try discriminate. reflexivity.
  - eauto.
Qed.

Lemma failed_insert (l : list task) (i : nat) (e : exn) :
  (i < length l)%nat -> existsb is_failed (<[i := Failed e]> l) = true.
Proof.
  revert i. induction l as [| x l IH]; intros i Hi; [cbn in Hi; lia |].
  destruct i as [| i].
  - reflexivity.
  - change (<[S i := Failed e]> (x :: l)) with (x :: <[i := Failed e]> l).
    cbn [existsb]. rewrite IH; [apply orb_true_r | cbn in Hi; lia].
Qed.

Lemma failed_insert_keeps (l : list task) (i : nat) (t0 t : task) :
  l !! i = Some t0 -> is_failed t0 = false ->
  existsb is_failed l = true -> existsb is_failed (<[i := t]> l) = true.
Proof.
  revert i. induction l as [| x l IH]; intros i Hi Ht0 Hex; [discriminate |].
  destruct i as [| i]; cbn in Hi.
  - injection Hi as ->. change (<[0%nat := t]> (t0 :: l)) with (t :: l).
    cbn [existsb] in *. rewrite Ht0 in Hex. cbn in Hex. rewrite Hex.
    apply orb_true_r.
  - change (<[S i := t]> (x :: l)) with (x :: <[i := t]> l).
    cbn [existsb] in *. apply orb_true_iff in Hex. destruct Hex as [Hx | Hl].
    + rewrite Hx. reflexivity.
    + rewrite (IH i Hi Ht0 Hl). apply orb_true_r.
Qed.

Lemma no_failed (l : list task) :
  (forall t, In t l -> is_failed t = false) -> existsb is_failed l = false.
Proof.
  induction l as [| x l IH]; intros H; [reflexivity |].
  cbn [existsb]. rewrite (H x (or_introl eq_refl)). cbn. apply IH.
  intros t Ht. apply H. right. exact Ht.
Qed.

Lemma step_all_agrees (st : state) (ev : event) :
  all_agrees st -> all_agrees (step st ev).
Proof.
  unfold all_agrees. intros Hinv.
  destruct ev as [i r | i r]; cbn [step];
    destruct (uploadPromises st !! i) as [t |] eqn:Hi; try exact Hinv;
    destruct t; try exact Hinv;
    assert (Hlt := lookup_lt_Some _ _ _ Hi);
    destruct r as [| cause];
    unfold fail_task, reject_all, resolve_all, set_task, count_and_publish;
    cbn; destruct (all st) eqn:Ha; cbn; rewrite ?Ha; cbn;
    try exact I;
    try (pose proof (done_lookup _ _ _ Hinv Hi); discriminate);
    try (apply failed_insert; exact Hlt);
    try (eapply failed_insert_keeps; eauto; reflexivity).
  destruct (forallb is_done (<[i:=Done]> (uploadPromises st))) eqn:Hd;
    cbn; rewrite ?Ha; cbn; auto.
Qed.

Lemma run_all_agrees (evs : list event) (st : state) :
  all_agrees st -> all_agrees (run evs st).
Proof.
  revert st. induction evs as [| ev evs IH]; intros st H; [exact H |].
  cbn [run fold_left]. apply IH. apply step_all_agrees. exact H.
Qed.

(** A rejected [Promise.all] keeps its reason. *)
Lemma run_all_final (evs : list event) (st : state) (e : exn) :
  all st = RejectedWith e -> all (run evs st) = RejectedWith e.
Proof.
  revert st. induction evs as [| ev evs IH]; intros st H; [exact H |].
  cbn [run fold_left]. apply IH.
  destruct ev as [i r | i r]; cbn [step];
    destruct (uploadPromises st !! i) as [[| | |] |]; try exact H;
    destruct r; unfold fail_task, reject_all, resolve_all, set_task,
                  count_and_publish; cbn; rewrite H; reflexivity.
Qed.

End UploaderFailure.

(** C1, as stated, fails: of two uploads, the first is rejected while the
    second is still in flight.  [Promise.all] is rejected at once, so
    [uploadArtifacts] fails without awaiting the second upload. *)
Lemma upload_failure_does_not_await_siblings :
  let st :=
    Uploader.run [Uploader.UploadSettled 0 (Rejected (Error "socket hang up"))]
      (Uploader.start (fun _ => None) "bucket" "demo" "/app/output/dist"
         ["a.js"; "b.css"] (fun _ => false)) in
  Uploader.all st
    = RejectedWith (BuildError "Failed to upload a.js" UPLOAD_FAILED
                      (OriginalError "socket hang up"))
  /\ Uploader.uploadPromises st !! 1%nat = Some Uploader.AwaitUpload
  /\ forallb Uploader.is_settled (Uploader.uploadPromises st) = false.
Proof. vm_compute. repeat split. Qed.

(** C1 (amended). When no upload promise has rejected so far and the
    upload of file [i] is rejected, [Promise.all] is rejected at that
    moment, without awaiting the others, with an [UPLOAD_FAILED]
    [BuildError] naming that file; the failure stays this one whatever
    completes later.  The other uploads are left as they are: one that is
    in flight stays in flight and, when it completes, is still counted
    and reported. *)
Theorem upload_failure_is_immediate_and_names_first
    (mime_lookup : string -> option string)
    (s3BucketName uri distDir : string) (files : list string)
    (isDirectory : string -> bool)
    (pre : list Uploader.event) (i : nat) (cause : exn)
    (post : list Uploader.event) :
  let st :=
    Uploader.run pre
      (Uploader.start mime_lookup s3BucketName uri distDir files isDirectory) in
  let st' := Uploader.step st (Uploader.UploadSettled i (Rejected cause)) in
  (forall t, In t (Uploader.uploadPromises st) -> Uploader.is_failed t = false) ->
  Uploader.uploadPromises st !! i = Some Uploader.AwaitUpload ->
  exists file,
    Uploader.uploaded_files st !! i = Some file
    /\ In file files
    /\ Uploader.all st = Pending
    /\ Uploader.all st'
       = RejectedWith (BuildError ("Failed to upload " +:+ file) UPLOAD_FAILED
                         (OriginalError (e_message cause)))
    /\ Uploader.all (Uploader.run post st') = Uploader.all st'
    /\ (forall j, j <> i ->
          Uploader.uploadPromises st' !! j = Uploader.uploadPromises st !! j)
    /\ (forall j, j <> i ->
          Uploader.uploadPromises st !! j = Some Uploader.AwaitUpload ->
          let st'' := Uploader.step st' (Uploader.UploadSettled j Fulfilled) in
          Uploader.uploadedCount st'' = S (Uploader.uploadedCount st')
          /\ Uploader.published st''
             = (Uploader.published st'
                  ++ [Uploader.progress (S (Uploader.uploadedCount st'))
                        (Uploader.totalFiles st')])%list).
Proof.
  intros st st' Hnone Hi.
  set (st0 := Uploader.start mime_lookup s3BucketName uri distDir files
                isDirectory) in *.
  destruct (start_fields mime_lookup s3BucketName uri distDir isDirectory files)
    as (Hfiles & _ & _ & Htasks & _ & _).
  fold st0 in Hfiles, Htasks.
  destruct (run_frame pre st0) as (_ & Ff & _ & Fl). fold st in Ff, Fl.
  (* the file of promise [i] *)
  assert (Hlt : (i < length (Uploader.uploaded_files st))%nat).
  { rewrite Ff, Hfiles. apply lookup_lt_Some in Hi.
    rewrite Fl, Htasks, length_map in Hi. exact Hi. }
  destruct (lookup_lt_is_Some_2 _ _ Hlt) as [file Hfile].
  exists file. split; [exact Hfile |].
  split.
  { rewrite Ff, Hfiles in Hfile. apply list_elem_of_lookup_2 in Hfile.
    apply list_elem_of_In in Hfile. apply filter_In in Hfile. tauto. }
  (* [Promise.all] is still pending *)
  assert (Hinv : Uploader.all_agrees st).
  { apply run_all_agrees. unfold Uploader.all_agrees, st0, Uploader.start. cbn.
    destruct (Uploader.start_uploads _ _ _ _ _ files); cbn; auto. }
  assert (Hpending : Uploader.all st = Pending).
  { unfold Uploader.all_agrees in Hinv.
    destruct (Uploader.all st) eqn:Ha; [reflexivity | |].
    - pose proof (done_lookup _ _ _ Hinv Hi). discriminate.
    - rewrite (no_failed _ Hnone) in Hinv. discriminate. }
  split; [exact Hpending |].
  assert (Hall' : Uploader.all st'
            = RejectedWith (BuildError ("Failed to upload " +:+ file)
                              UPLOAD_FAILED (OriginalError (e_message cause)))).
  { subst st'. cbn [Uploader.step]. rewrite Hi.
    unfold Uploader.fail_task, Uploader.reject_all, Uploader.set_task. cbn.
    rewrite Hpending, Hfile. reflexivity. }
  split; [exact Hall' |].
  split; [rewrite Hall'; apply run_all_final; exact Hall' |].
  assert (Htasks' : Uploader.uploadPromises st'
            = <[i := Uploader.Failed
                       (Uploader.upload_error file cause)]>
                (Uploader.uploadPromises st)).
  { subst st'. cbn [Uploader.step]. rewrite Hi.
    unfold Uploader.fail_task, Uploader.reject_all, Uploader.set_task. cbn.
    rewrite Hpending, Hfile. reflexivity. }
  split.
  - intros j Hj. rewrite Htasks'. apply list_lookup_insert_ne. auto.
  - intros j Hj Hflight st''. subst st''. cbn [Uploader.step].
    rewrite Htasks', list_lookup_insert_ne by auto. rewrite Hflight.
    unfold Uploader.set_task, Uploader.count_and_publish. cbn. auto.
Qed.

Lemma upload_failure_is_immediate_and_names_first_witness :
  let start :=
    Uploader.start (fun _ => None) "bucket" "demo" "/app/output/dist"
      ["a.js"; "b.css"; "c.png"] (fun _ => false) in
  let st := Uploader.run [Uploader.UploadSettled 2 Fulfilled] start in
  let st' := Uploader.step st (Uploader.UploadSettled 1 (Rejected (Error "denied"))) in
  (forall t, In t (Uploader.uploadPromises st) -> Uploader.is_failed t = false)
  /\ Uploader.uploadPromises st !! 1%nat = Some Uploader.AwaitUpload
  /\ exists file,
       Uploader.uploaded_files st !! 1%nat = Some file
       /\ Uploader.all st'
          = RejectedWith (BuildError ("Failed to upload " +:+ file) UPLOAD_FAILED
                            (OriginalError "denied")).
Proof.
  intros start st st'.
  assert (Hnone : forall t, In t (Uploader.uploadPromises st) ->
                    Uploader.is_failed t = false).
  { intros t Ht. cbn in Ht. destruct Ht as [<- | [<- | [<- | []]]]; reflexivity. }
  assert (Hi : Uploader.uploadPromises st !! 1%nat = Some Uploader.AwaitUpload)
    by reflexivity.
  split; [exact Hnone |]. split; [exact Hi |].
  destruct (upload_failure_is_immediate_and_names_first (fun _ => None) "bucket"
              "demo" "/app/output/dist" ["a.js"; "b.css"; "c.png"]
              (fun _ => false) [Uploader.UploadSettled 2 Fulfilled] 1
              (Error "denied") [] Hnone Hi)
    as (file & Hfile & _ & _ & Hall & _).
  exists file. split; [exact Hfile | exact Hall].
Defined.

(* ----------------------------------------------------------------- *)
(** ** The analytical database *)

(** C8, as stated, fails: with a client that is not connected, both
    operations are rejected with a [BuildError], and their caller sees
    it. *)
Lemma clickhouse_operations_reject_when_not_connected :
  let s := fresh (env_of full_env) 0 true false None in
  isConnected s = false
  /\ advance (ClickHouseService.insertBuildLog "d1" "Build process started" "INFO") s
     = (s, Throw (BuildError "ClickHouse client not connected" CLICKHOUSE_ERROR
                    NoDetails), [])
  /\ advance (ClickHouseService.recordBuildMetrics "d1" "demo" None 0
                "FAILED" "boom") s
     = (s, Throw (BuildError "ClickHouse client not connected" CLICKHOUSE_ERROR
                    NoDetails), []).
Proof. repeat split. Qed.

(** C8 (amended). With a connected client both operations are best
    effort: the row is handed to the client and, whether the insert is
    fulfilled or rejected, the operation returns normally; a rejection is
    only logged.  With a client that is not connected both operations
    are rejected at once with the [BuildError] [ClickHouse client not
    connected] (code [CLICKHOUSE_ERROR]) and no insert is attempted. *)
Theorem clickhouse_operations_best_effort_when_connected
    (s : server) (r : settle)
    (deploymentId log level projectUri status errorMessage : string)
    (startTime : option Z) (endTime : Z) :
  let logRow := ChInsert "log_events" (LogRow deploymentId log level (clock s)) in
  let metricsRow :=
    ChInsert "build_metrics"
      (MetricsRow deploymentId projectUri startTime endTime
         ((endTime - default 0 startTime) / 1000) status errorMessage (clock s)) in
  if isConnected s
  then
    complete [r] (ClickHouseService.insertBuildLog deploymentId log level) s
      = (match r with
         | Fulfilled => emit (Issue logRow) s
         | Rejected e =>
             emit (LogError "Failed to insert build log:" (Some e))
               (emit (Issue logRow) s)
         end, Ret)
    /\ complete [r]
         (ClickHouseService.recordBuildMetrics deploymentId projectUri
            startTime endTime status errorMessage) s
       = (match r with
          | Fulfilled => emit (Issue metricsRow) s
          | Rejected e =>
              emit (LogError "Failed to record build metrics:" (Some e))
                (emit (Issue metricsRow) s)
          end, Ret)
  else
    advance (ClickHouseService.insertBuildLog deploymentId log level) s
      = (s, Throw ClickHouseService.not_connected, [])
    /\ advance
         (ClickHouseService.recordBuildMetrics deploymentId projectUri
            startTime endTime status errorMessage) s
       = (s, Throw ClickHouseService.not_connected, []).
Proof.
  intros logRow metricsRow. subst logRow metricsRow.
  destruct s as [env0 ex st bp conn prod lis clk od db fe tr exi].
  destruct conn; destruct r as [| e]; split; reflexivity.
Qed.

(* ----------------------------------------------------------------- *)
(** ** The Shutdown Coordinator *)


Lemma and_then_never_throws (p q : prog) :
  never_throws p -> never_throws q -> never_throws (p ;; q).
Proof.
  intros Hp Hq. induction Hp; cbn [and_then]; try constructor; auto.
Qed.

Lemma advance_AllSettled (ps : list prog) (k : prog) (s : server) :
  advance (AllSettled ps k) s =
    let '(s1, ps1, forked) := advance_all ps s in
    if forallb finished ps1
    then let '(s2, k1, f2) := advance k s1 in (s2, k1, (forked ++ f2)%list)
    else (s1, AllSettled ps1 k, forked).
Proof. reflexivity. Qed.






(** *** Sequencing and the event loop *)

Lemma advance_and_then (p q : prog) (s : server) :
  advance (p ;; q) s =
    let '(s1, p1, f1) := advance p s in
    match p1 with
    | Ret => let '(s2, q1, f2) := advance q s1 in (s2, q1, (f1 ++ f2)%list)
    | _ => (s1, p1 ;; q, f1)
    end.
Proof.
  revert s. induction p as [| e | c | k IH | f k IH | op k IH | ps k IH | c IHc k IH];
    intros s.
  - cbn. destruct (advance q s) as [[s2 q1] f2]. reflexivity.
  - reflexivity.
  - reflexivity.
  - cbn [and_then advance]. apply IH.
  - cbn [and_then advance]. apply IH.
  - reflexivity.
  - cbn [and_then]. rewrite !advance_AllSettled.
    destruct (advance_all ps s) as [[s1 ps1] forked].
    destruct (forallb finished ps1); [| reflexivity].
    rewrite IH. destruct (advance k s1) as [[s2 k1] f2].
    destruct k1; try reflexivity.
    destruct (advance q s2) as [[s3 q1] f3]. rewrite app_assoc. reflexivity.
  - cbn [and_then advance]. destruct (advance c s) as [[s1 c1] f1].
    rewrite IH. destruct (advance k s1) as [[s2 k1] f2].
    destruct k1; try reflexivity.
    destruct (advance q s2) as [[s3 q1] f3]. rewrite <- !app_assoc. reflexivity.
Qed.

Lemma pending_and_then (p q : prog) :
  p <> Ret -> pending (p ;; q) = pending p.
Proof. destruct p; intros H; try reflexivity. contradiction. Qed.

Lemma resume_and_then (what : opname) (r : settle) (p q : prog) :
  p <> Ret ->
  resume what r (p ;; q)
  = match resume what r p with Some p' => Some (p' ;; q) | None => None end.
Proof.
  destruct p; intros H; try reflexivity; [contradiction | |].
  - cbn. destruct (opname_eqb (name_of op) what); reflexivity.
  - cbn [and_then resume].
    match goal with
    | |- match ?x with _ => _ end = match match ?y with _ => _ end with _ => _ end =>
        change y with x; destruct x; reflexivity
    end.
Qed.

(** A call that ends normally, followed by [process.exit(code)]. *)
Lemma complete_then_exit (rs : list settle) (p : prog) (code : Z) (s s' : server) :
  complete rs p s = (s', Ret) ->
  complete rs (p ;; Exit code) s = (do_exit code s', Exit code).
Proof.
  revert p s. induction rs as [| r rs IH]; intros p s Hp.
  - cbn [complete] in *. rewrite advance_and_then.
    destruct (advance p s) as [[s1 p1] f1]. injection Hp as -> ->. reflexivity.
  - cbn [complete] in *. rewrite advance_and_then.
    destruct (advance p s) as [[s1 p1] f1].
    destruct p1 as [| e | c | k | f k | op k | ps k | c k];
      try (cbn in Hp; discriminate).
    + cbn in Hp. injection Hp as ->. reflexivity.
    + cbn [pending] in Hp. rewrite pending_and_then by discriminate.
      cbn [pending]. rewrite resume_and_then by discriminate.
      destruct (resume (name_of op) r (Await op k)) as [p2 |]; [| discriminate].
      apply IH. exact Hp.
    + rewrite pending_and_then by discriminate.
      destruct (pending (AllSettled ps k)) as [| op ops]; [discriminate |].
      rewrite resume_and_then by discriminate.
      destruct (resume (name_of op) r (AllSettled ps k)) as [p2 |];
        [| discriminate].
      apply IH. exact Hp.
Qed.

Lemma complete_from_advance (rs : list settle) (p p' : prog) (s s' : server) :
  advance p s = advance p' s' -> complete rs p s = complete rs p' s'.
Proof. intros H. destruct rs; cbn [complete]; rewrite H; reflexivity. Qed.

(** *** The latch *)


Lemma cleanup_first (error : option exn) (s : server) :
  isExiting s = false ->
  advance (BuildServer.cleanup error) s
  = advance (BuildServer.teardown error) (set_isExiting true s).
Proof. intros H. cbn. rewrite H. reflexivity. Qed.



(** *** The teardown, case by case *)

Ltac close_cases :=
  repeat match goal with
         | H : _ \/ _ |- _ => destruct H
         | H : False |- _ => destruct H
         | H : Issue _ = Issue _ |- _ => injection H as <-
         end;
  try discriminate; try reflexivity; try congruence.

Ltac find_in := cbn; repeat (first [left; reflexivity | right]).


(** With a connected client the teardown goes through all of its steps,
    however the three requests it makes settle. *)
Lemma teardown_connected (error : option exn) (r1 r2 r3 : settle) (s : server) :
  isConnected s = true ->
  let status := match error with Some _ => "FAILED" | None => "SUCCESS" end in
  let errorMessage := match error with Some e => e_message e | None => "" end in
  exists s' effects,
    complete [r1; r2; r3] (BuildServer.teardown error) s = (s', Ret)
    /\ trace s' = (trace s ++ effects)%list
    /\ isExiting s' = isExiting s
    /\ exited s' = exited s
    /\ (buildProcess s = Some false ->
        In Kill effects /\ buildProcess s' = Some true)
    /\ In (Issue (metrics_request s status errorMessage)) effects
    /\ (forall op, In (Issue op) effects -> name_of op = OInsert ->
          op = metrics_request s status errorMessage)
    /\ (producer s = true -> In (Issue ProducerDisconnect) effects)
    /\ In (Issue ChClose) effects
    /\ (outputDir_exists s = true -> fs_error s = None ->
        In RmDir effects /\ outputDir_exists s' = false)
    /\ In (LogInfo "Graceful shutdown completed") effects.
Proof.
  intros Hc status errorMessage.
  destruct s as [env0 ex st bp conn prod lis clk od db fe tr exi].
  cbn [isConnected] in Hc. subst conn.
  unfold metrics_request. subst status errorMessage.
  destruct bp as [[|] |]; destruct prod; destruct od; destruct fe as [m |];
    destruct r1 as [| e1], r2 as [| e2], r3 as [| e3];
    (eexists; eexists; split; [reflexivity |];
     split; [cbn; rewrite <- ?app_assoc; reflexivity |]);
    (cbn [isExiting exited buildProcess producer outputDir_exists fs_error];
     repeat split; intros; try discriminate; try reflexivity);
    try (find_in; fail);
    (cbn in *; close_cases).
Qed.


Lemma set_isExiting_frame (b : bool) (s : server) (status errorMessage : string) :
  isExiting (set_isExiting b s) = b
  /\ trace (set_isExiting b s) = trace s
  /\ isConnected (set_isExiting b s) = isConnected s
  /\ buildProcess (set_isExiting b s) = buildProcess s
  /\ producer (set_isExiting b s) = producer s
  /\ outputDir_exists (set_isExiting b s) = outputDir_exists s
  /\ fs_error (set_isExiting b s) = fs_error s
  /\ exited (set_isExiting b s) = exited s
  /\ metrics_request (set_isExiting b s) status errorMessage
     = metrics_request s status errorMessage.
Proof. destruct s. repeat split. Qed.

(** *** The latch is never taken back *)



Lemma keeps_try_catch (p : prog) (h : exn -> prog) :
  keeps_latch p -> (forall e, keeps_latch (h e)) -> keeps_latch (try_catch p h).
Proof.
  intros Hp Hh. induction Hp; cbn [try_catch]; try constructor; auto.
Qed.

Lemma keeps_and_then (p q : prog) :
  keeps_latch p -> keeps_latch q -> keeps_latch (p ;; q).
Proof.
  intros Hp Hq. induction Hp; cbn [and_then]; try constructor; auto.
Qed.




Create HintDb code.
#[local] Hint Unfold BuildServer.main BuildServer.initialize BuildServer.runBuild
  BuildServer.cleanup BuildServer.teardown BuildServer.on_signal
  BuildServer.on_uncaughtException BuildServer.on_unhandledRejection
  BuildServer.setupCleanup BuildServer.prepareOutputDirectory
  BuildServer.executeBuildProcess BuildServer.uploadArtifacts
  BuildServer.rmSync BuildServer.mkdirSync
  ErrorHandlerAsync.handleError ErrorHandlerAsync.gracefulShutdown
  KafkaService.connect KafkaService.publishLog KafkaService.disconnect
  ClickHouseService.initialize ClickHouseService.createTablesIfNotExist
  ClickHouseService.insertBuildLog ClickHouseService.recordBuildMetrics
  ClickHouseService.disconnect
  call act logger_info logger_error : code.

Ltac keeps :=
  repeat first
    [ progress intros
    | apply keeps_try_catch
    | apply keeps_and_then
    | match goal with
      | |- isExiting _ = true =>
          match goal with
          | H : isExiting ?s = true |- _ => destruct s; cbn in *; congruence
          end
      | |- Forall _ _ => constructor
      | |- keeps_latch (if ?b then _ else _) => destruct b
      | |- keeps_latch (match ?x with _ => _ end) => destruct x
      | |- keeps_latch _ => constructor
      end
    | progress autounfold with code
    | progress cbn [app] ].


Lemma cleanup_keeps (error : option exn) : keeps_latch (BuildServer.cleanup error).
Proof. keeps. Qed.













Lemma emit_frame (e : effect) (s : server) (status errorMessage : string) :
  trace (emit e s) = (trace s ++ [e])%list
  /\ isExiting (emit e s) = isExiting s
  /\ isConnected (emit e s) = isConnected s
  /\ buildProcess (emit e s) = buildProcess s
  /\ exited (emit e s) = exited s
  /\ metrics_request (emit e s) status errorMessage
     = metrics_request s status errorMessage.
Proof. destruct s. repeat split. Qed.

(** C10, as stated, fails: SIGTERM arrives while the build is running.
    The listener takes the latch, kills the child and hands over the
    metrics row with status [SUCCESS]; but the death of the child closes
    it with a null exit code, which rejects the promise of
    [executeBuildProcess], and the failure path of [runBuild] (publish,
    insert, [cleanup], which finds the latch, then [process.exit(1)])
    finishes while the listener still waits for its insert: the process
    exits with code 1. *)
Lemma signal_shutdown_can_exit_with_code_1 :
  let started :=
    [Settle 0 OPing Fulfilled; Settle 0 OExec Fulfilled; Settle 0 OExec Fulfilled;
     Settle 0 OConnect Fulfilled; Settle 0 OSend Fulfilled;
     Settle 0 OInsert Fulfilled; Elapse 60000] in
  let killed := Runner.exit_error None "" in
  let sys :=
    run_loop
      (started ++ [Signal "SIGTERM";
                   Settle 0 OBuild (Rejected killed);
                   Settle 0 OSend Fulfilled;
                   Settle 0 OInsert Fulfilled])
      (boot (fresh (env_of full_env) 1000 true true None)) in
  Runner.outcome (Runner.executeBuildProcess 1000 [(61000, Runner.Close None)] 61000)
    = RejectedWith killed
  /\ skipn 13 (trace (srv sys))
     = [LogInfo "Received SIGTERM"; Kill;
        Issue (ChInsert "build_metrics"
                 (MetricsRow "d1" "demo" (Some 1000) 61000 60 "SUCCESS" "" 61000));
        Issue (ProducerSend ("Build failed: " +:+ e_message killed));
        Issue (ChInsert "log_events"
                 (LogRow "d1" ("Build failed: " +:+ e_message killed) "ERROR"
                    61000))]
  /\ exited (srv sys) = Some (Exited 1).
Proof. vm_compute. repeat split. Qed.

(** C10 (amended). When SIGTERM or SIGINT is the first shutdown trigger
    (and ClickHouse is connected, as it is once the listeners are in
    place), the listener calls [cleanup] with no error: in the very turn
    of the event loop in which the signal is delivered the child, if it
    is still running, is killed and the metrics row is handed over with
    status [SUCCESS] and an empty message, and no other metrics row
    follows.  The listener, run to its end, then calls
    [process.exit(0)]: the process exits with code 0 provided nothing
    else has ended it before. *)
Theorem signal_shutdown_records_success
    (sig : string) (r1 r2 r3 : settle) (s : server) :
  isExiting s = false ->
  isConnected s = true ->
  (exists s' effects,
     complete [r1; r2; r3] (BuildServer.on_signal sig) s = (s', Exit 0)
     /\ trace s' = (trace s ++ LogInfo ("Received " +:+ sig) :: effects)%list
     /\ In (Issue (metrics_request s "SUCCESS" "")) effects
     /\ (forall op, In (Issue op) effects -> name_of op = OInsert ->
           op = metrics_request s "SUCCESS" "")
     /\ (buildProcess s = Some false ->
         In Kill effects /\ buildProcess s' = Some true)
     /\ (exited s = None -> exited s' = Some (Exited 0)))
  /\ (forall pool,
        listening s = true -> exited s = None ->
        let sys' := loop_step (mkSystem s pool) (Signal sig) in
        isExiting (srv sys') = true
        /\ trace (srv sys')
           = (trace s
                ++ [LogInfo ("Received " +:+ sig)]
                ++ (match buildProcess s with Some false => [Kill] | _ => [] end)
                ++ [Issue (metrics_request s "SUCCESS" "")])%list).
Proof.
  intros Hx Hc. split.
  - set (s1 := emit (LogInfo ("Received " +:+ sig)) s).
    destruct (emit_frame (LogInfo ("Received " +:+ sig)) s "SUCCESS" "")
      as (Et & Ex & Ec & Eb & Ee & Em). fold s1 in Et, Ex, Ec, Eb, Ee, Em.
    destruct (set_isExiting_frame true s1 "SUCCESS" "")
      as (_ & Ft & Fc & Fb & _ & _ & _ & Fe & Fm).
    destruct (teardown_connected None r1 r2 r3 (set_isExiting true s1))
      as (s' & effects & Hrun & Htr & _ & Hex & Hk & Hm & Honly & _).
    { rewrite Fc, Ec. exact Hc. }
    assert (Hclean : complete [r1; r2; r3] (BuildServer.cleanup None) s1 = (s', Ret)).
    { rewrite <- Hrun. apply complete_from_advance. apply cleanup_first.
      rewrite Ex. exact Hx. }
    exists (do_exit 0 s'), effects.
    split.
    { rewrite <- (complete_then_exit _ _ 0 _ _ Hclean).
      apply complete_from_advance. reflexivity. }
    rewrite Ft, Et in Htr. rewrite Fm, Em in Hm, Honly. rewrite Fb, Eb in Hk.
    rewrite Fe, Ee in Hex.
    assert (Hdo : trace (do_exit 0 s') = trace s'
                  /\ buildProcess (do_exit 0 s') = buildProcess s'
                  /\ (exited s' = None -> exited (do_exit 0 s') = Some (Exited 0))).
    { unfold do_exit. destruct s' as [? ? ? ? ? ? ? ? ? ? ? ? q]. cbn.
      destruct q; cbn; repeat split; congruence. }
    destruct Hdo as (D1 & D2 & D3).
    split; [rewrite D1, Htr, <- app_assoc; reflexivity |].
    split; [exact Hm |]. split; [exact Honly |]. split.
    + intros Hb. destruct (Hk Hb) as [K1 K2]. split; [exact K1 | congruence].
    + intros He. apply D3. congruence.
  - intros pool Hl He sys'. subst sys'.
    destruct s as [env0 ex st bp conn prod lis clk od db fe tr exi].
    cbn in Hx, Hc, Hl, He. subst ex conn lis exi.
    unfold metrics_request.
    destruct bp as [[|] |]; cbn; rewrite <- ?app_assoc; split; reflexivity.
Qed.

Lemma signal_shutdown_records_success_witness :
  let s :=
    set_buildProcess (Some false)
      (set_listening true
         (set_isConnected true (fresh (env_of full_env) 0 true false None))) in
  isExiting s = false
  /\ isConnected s = true
  /\ exists s',
       complete [Fulfilled; Fulfilled; Fulfilled] (BuildServer.on_signal "SIGINT") s
         = (s', Exit 0)
       /\ exited s' = Some (Exited 0)
       /\ buildProcess s' = Some true.
Proof.
  intros s.
  assert (Hx : isExiting s = false) by reflexivity.
  assert (Hc : isConnected s = true) by reflexivity.
  split; [exact Hx |]. split; [exact Hc |].
  destruct (proj1 (signal_shutdown_records_success "SIGINT" Fulfilled Fulfilled
                     Fulfilled s Hx Hc))
    as (s' & effects & Hrun & _ & _ & _ & Hk & He).
  exists s'. split; [exact Hrun |]. split; [apply He; reflexivity |].
  apply Hk. reflexivity.
Defined.

(* ================================================================= *)
(** * Further properties *)

(* ----------------------------------------------------------------- *)
(** ** Configuration: what is checked *)

Lemma truthy_spec (v : option string) :
  truthy v = true <-> exists s, v = Some s /\ s <> "".
Proof.
  destruct v as [s |]; cbn.
  - destruct (String.eqb_spec s ""); cbn; split.
    + discriminate.
    + intros (s' & [= <-] & Hne). contradiction.
    + intros _. exists s. auto.
    + reflexivity.
  - split; [discriminate | intros (s & [=] & _)].
Qed.

(** X1. Loading config/config.js checks eight variables and nothing else:
    it passes exactly when each of them is set to a non-empty string, its
    result does not depend on any other variable (the Kafka and
    ClickHouse settings and [PROJECT_ROOT_DIR] are not looked at), and
    what it throws is a plain [Error], without a code. *)
Theorem validateConfig_checks_eight_variables (env : environment) :
  let checked :=
    [ "AWS_REGION"; "AWS_ACCESS_KEY_ID"; "AWS_SECRET_ACCESS_KEY";
      "S3_BUCKET_NAME"; "PROJECT_URI"; "DEPLOYMENT_ID";
      "PROJECT_INSTALL_COMMAND"; "PROJECT_BUILD_COMMAND" ] in
  (Config.validateConfig env = Normal tt <->
     forall v, In v checked -> exists s, env !! v = Some s /\ s <> "")
  /\ (forall env' : environment,
        (forall v, In v checked -> env' !! v = env !! v) ->
        Config.validateConfig env' = Config.validateConfig env)
  /\ (forall e, Config.validateConfig env = Thrown e ->
        e_name e = "Error" /\ e_code e = None).
Proof.
  intros checked. split; [| split].
  - rewrite validateConfig_cascade. split.
    + intros H v Hv. apply truthy_spec.
      repeat match type of H with
             | (if negb (truthy ?x) then _ else _) = _ =>
                 let E := fresh "E" in destruct (truthy x) eqn:E; cbn [negb] in H;
                 [| discriminate]
             end.
      cbn in Hv.
      repeat (destruct Hv as [<- | Hv]; [assumption |]). destruct Hv.
    + intros H.
      repeat match goal with
             | |- (if negb (truthy (env !! ?v)) then _ else _) = _ =>
                 let E := fresh "E" in
                 assert (E : truthy (env !! v) = true)
                   by (apply truthy_spec, H; cbn; tauto);
                 rewrite E; cbn [negb]
             end.
      reflexivity.
  - intros env' H. rewrite !validateConfig_cascade.
    rewrite !H by (cbn; tauto). reflexivity.
  - intros e. rewrite validateConfig_cascade.
    repeat match goal with
           | |- (if ?b then _ else _) = _ -> _ => destruct b
           end; intros [= <-]; split; reflexivity.
Qed.

(* ----------------------------------------------------------------- *)
(** ** The key of an uploaded file *)

Lemma list_ascii_of_append (a b : string) :
  list_ascii_of_string (a +:+ b)
  = (list_ascii_of_string a ++ list_ascii_of_string b)%list.
Proof.
  induction a as [| c a IH]; [reflexivity |].
  change (String c a +:+ b) with (String c (a +:+ b)).
  cbn [list_ascii_of_string]. rewrite IH. reflexivity.
Qed.

Lemma take_segment_app_slash (x r : list ascii) :
  take_segment (x ++ "/"%char :: r) = take_segment x.
Proof.
  induction x as [| c x IH]; [reflexivity |].
  cbn [app take_segment]. destruct (is_slash c); [reflexivity |].
  rewrite IH. reflexivity.
Qed.

Lemma drop_slashes_app (x r : list ascii) :
  existsb (fun c => negb (is_slash c)) x = true ->
  drop_slashes (x ++ r) = (drop_slashes x ++ r)%list.
Proof.
  induction x as [| c x IH]; [discriminate |].
  cbn [existsb app drop_slashes]. destruct (is_slash c); cbn [negb orb].
  - exact IH.
  - reflexivity.
Qed.

Lemma take_segment_no_slash (l : list ascii) :
  forallb (fun c => negb (is_slash c)) (take_segment l) = true.
Proof.
  induction l as [| c l IH]; [reflexivity |].
  cbn [take_segment]. destruct (is_slash c) eqn:E; [reflexivity |].
  cbn [forallb]. rewrite E, IH. reflexivity.
Qed.

Lemma forallb_rev_eq {A} (f : A -> bool) (l : list A) :
  forallb f (rev l) = forallb f l.
Proof.
  destruct (forallb f l) eqn:E.
  - rewrite forallb_forall in *. intros x Hx. apply E, in_rev, Hx.
  - destruct (forallb f (rev l)) eqn:E'; [| reflexivity].
    rewrite forallb_forall in E'.
    assert (forallb f l = true); [| congruence].
    apply forallb_forall. intros x Hx. apply E'. rewrite <- in_rev. exact Hx.
Qed.

Lemma existsb_rev_eq {A} (f : A -> bool) (l : list A) :
  existsb f (rev l) = existsb f l.
Proof.
  destruct (existsb f l) eqn:E.
  - rewrite existsb_exists in *. destruct E as (x & Hx & Hf).
    exists x. split; [rewrite <- in_rev |]; assumption.
  - destruct (existsb f (rev l)) eqn:E'; [| reflexivity].
    rewrite existsb_exists in E'. destruct E' as (x & Hx & Hf).
    assert (existsb f l = true); [| congruence].
    apply existsb_exists. exists x. split; [apply in_rev |]; assumption.
Qed.

(** The base name of a path has no slash. *)
Lemma basename_no_slash (p : string) :
  forallb (fun c => negb (is_slash c)) (list_ascii_of_string (basename p)) = true.
Proof.
  unfold basename. rewrite list_ascii_of_string_of_list_ascii, forallb_rev_eq.
  apply take_segment_no_slash.
Qed.

(** Joining a directory in front of an entry does not change its base
    name. *)
Lemma basename_path_join (dir file : string) :
  existsb (fun c => negb (is_slash c)) (list_ascii_of_string file) = true ->
  basename (path_join dir file) = basename file.
Proof.
  intros H. unfold basename, path_join.
  rewrite !list_ascii_of_append. cbn [list_ascii_of_string app].
  rewrite rev_app_distr. cbn [rev]. rewrite <- !app_assoc. cbn [app].
  rewrite drop_slashes_app by (rewrite existsb_rev_eq; exact H).
  rewrite take_segment_app_slash. reflexivity.
Qed.

Lemma basename_plain (file : string) :
  forallb (fun c => negb (is_slash c)) (list_ascii_of_string file) = true ->
  basename file = file.
Proof.
  intros H. unfold basename.
  assert (H' : forallb (fun c => negb (is_slash c))
                 (rev (list_ascii_of_string file)) = true)
    by (rewrite forallb_rev_eq; exact H).
  assert (Hd : forall l, forallb (fun c => negb (is_slash c)) l = true ->
                         drop_slashes l = l).
  { intros [| c l]; [reflexivity |]. cbn.
    destruct (is_slash c); [discriminate | reflexivity]. }
  assert (Ht : forall l, forallb (fun c => negb (is_slash c)) l = true ->
                         take_segment l = l).
  { induction l as [| c l IH]; [reflexivity |]. cbn.
    destruct (is_slash c); [discriminate |]. cbn. intros Hl. rewrite IH; auto. }
  rewrite Hd, Ht, rev_involutive by assumption.
  apply string_of_list_ascii_of_string.
Qed.

(** X2. The key under which an entry of the listing is stored keeps only
    its file name: whatever directories stand in front of it, the key is
    [__outputs/<uri>/] followed by the base name, which has no slash.  Two
    entries of the same name in different directories therefore get the
    same key. *)
Theorem upload_key_keeps_only_the_file_name
    (mime_lookup : string -> option string)
    (s3BucketName uri distDir file : string) :
  existsb (fun c => negb (is_slash c)) (list_ascii_of_string file) = true ->
  let key_of entry :=
    Key (Uploader.command_for mime_lookup s3BucketName uri distDir entry) in
  key_of file = "__outputs/" +:+ uri +:+ "/" +:+ basename file
  /\ forallb (fun c => negb (is_slash c))
       (list_ascii_of_string (basename file)) = true
  /\ (forallb (fun c => negb (is_slash c)) (list_ascii_of_string file) = true ->
      key_of file = "__outputs/" +:+ uri +:+ "/" +:+ file)
  /\ (forall sub, key_of (path_join sub file) = key_of file).
Proof.
  intros H key_of.
  assert (K : forall entry,
            existsb (fun c => negb (is_slash c)) (list_ascii_of_string entry) = true ->
            key_of entry = "__outputs/" +:+ uri +:+ "/" +:+ basename entry).
  { intros entry He. unfold key_of, Uploader.command_for, S3Service.uploadFile.
    cbn [Key]. rewrite basename_path_join by exact He. reflexivity. }
  split; [apply K, H |]. split; [apply basename_no_slash |]. split.
  - intros Hp. rewrite K by exact H. rewrite basename_plain by exact Hp. reflexivity.
  - intros sub.
    assert (Hs : existsb (fun c => negb (is_slash c))
                   (list_ascii_of_string (path_join sub file)) = true).
    { unfold path_join. rewrite !list_ascii_of_append, !existsb_app, H.
      rewrite !Bool.orb_true_r. reflexivity. }
    rewrite (K _ Hs), (K _ H), basename_path_join by exact H. reflexivity.
Qed.

Lemma upload_key_keeps_only_the_file_name_witness :
  existsb (fun c => negb (is_slash c)) (list_ascii_of_string "index.html") = true
  /\ Key (Uploader.command_for (fun _ => None) "bucket" "demo" "/app/output/dist"
            (path_join "docs" "index.html"))
     = Key (Uploader.command_for (fun _ => None) "bucket" "demo" "/app/output/dist"
              "index.html").
Proof.
  split; [reflexivity |].
  apply (upload_key_keeps_only_the_file_name (fun _ => None) "bucket" "demo"
           "/app/output/dist" "index.html" eq_refl).
Defined.

(* ----------------------------------------------------------------- *)
(** ** The runner before its deadline *)

Section RunnerDeadline.
Import Runner.



End RunnerDeadline.



(* ----------------------------------------------------------------- *)
(** ** The uploads: no file, and a progress line that is not published *)

(** X4. When the listing holds no file (it is empty, or holds only
    directories) [Promise.all] is fulfilled at once: nothing is sent,
    nothing is published, and no later completion changes anything. *)
Theorem uploads_of_no_file_succeed_at_once
    (mime_lookup : string -> option string)
    (s3BucketName uri distDir : string) (files : list string)
    (isDirectory : string -> bool) (evs : list Uploader.event) :
  Forall (fun file => isDirectory (path_join distDir file) = true) files ->
  let st0 := Uploader.start mime_lookup s3BucketName uri distDir files isDirectory in
  Uploader.all st0 = Resolved
  /\ Uploader.sent st0 = []
  /\ Uploader.published st0 = []
  /\ Uploader.totalFiles st0 = 0%nat
  /\ Uploader.run evs st0 = st0.
Proof.
  intros Hdirs st0.
  assert (Hnone : List.filter (Uploader.is_file distDir isDirectory) files = []).
  { clear st0. induction Hdirs as [| f fs Hf _ IH]; [reflexivity |].
    cbn [List.filter]. unfold Uploader.is_file at 1. rewrite Hf. exact IH. }
  assert (Hst : st0 = Uploader.mkState [] 0 0 [] [] [] Resolved).
  { subst st0. unfold Uploader.start.
    rewrite start_uploads_filter.
    change (fun file => negb (isDirectory (path_join distDir file)))
      with (Uploader.is_file distDir isDirectory).
    rewrite Hnone. reflexivity. }
  rewrite Hst. repeat split.
  induction evs as [| ev evs IH]; [reflexivity |].
  cbn [Uploader.run fold_left]. destruct ev as [i r | i r]; exact IH.
Qed.

Lemma uploads_of_no_file_succeed_at_once_witness :
  let isDirectory := fun p : string => true in
  Forall (fun file => isDirectory (path_join "/app/output/dist" file) = true)
    ["assets"; "assets/img"]
  /\ Uploader.all
       (Uploader.start (fun _ => None) "bucket" "demo" "/app/output/dist"
          ["assets"; "assets/img"] isDirectory) = Resolved.
Proof.
  intros isDirectory.
  assert (H : Forall (fun file => isDirectory (path_join "/app/output/dist" file) = true)
                ["assets"; "assets/img"]) by (repeat constructor).
  split; [exact H |].
  exact (proj1 (uploads_of_no_file_succeed_at_once (fun _ => None) "bucket" "demo"
                  "/app/output/dist" ["assets"; "assets/img"] isDirectory [] H)).
Defined.

Section UploaderCount.
Import Uploader.

Lemma counted_insert (l : list task) (i : nat) (t t' : task) :
  l !! i = Some t ->
  (length (List.filter counted (<[i := t']> l)) + (if counted t then 1 else 0)
   = length (List.filter counted l) + (if counted t' then 1 else 0))%nat.
Proof.
  revert i. induction l as [| x l IH]; intros i Hi; [discriminate |].
  destruct i as [| i]; cbn in Hi.
  - injection Hi as ->. change (<[0%nat := t']> (t :: l)) with (t' :: l).
    cbn [List.filter]. destruct (counted t), (counted t'); cbn [length]; lia.
  - change (<[S i := t']> (x :: l)) with (x :: <[i := t']> l).
    cbn [List.filter]. specialize (IH i Hi).
    destruct (counted x); cbn [length]; lia.
Qed.

(** The counter is never behind the uploads that have been counted. *)
Lemma step_counted (st : state) (ev : event) :
  (length (List.filter counted (uploadPromises st)) <= uploadedCount st)%nat ->
  (length (List.filter counted (uploadPromises (step st ev)))
   <= uploadedCount (step st ev))%nat.
Proof.
  intros H.
  destruct ev as [i r | i r]; cbn [step];
    destruct (uploadPromises st !! i) as [t |] eqn:Hi; try exact H;
    destruct t; try exact H; destruct r as [| cause];
    unfold fail_task, reject_all, resolve_all, set_task, count_and_publish;
    cbn;
    repeat match goal with
           | |- context [match ?x with _ => _ end] => destruct x; cbn
           end;
    match goal with
    | |- context [<[i := ?t']> _] =>
        pose proof (counted_insert _ _ _ t' Hi) as C; cbn in C; lia
    end.
Qed.

Lemma run_counted (evs : list event) (st : state) :
  (length (List.filter counted (uploadPromises st)) <= uploadedCount st)%nat ->
  (length (List.filter counted (uploadPromises (run evs st)))
   <= uploadedCount (run evs st))%nat.
Proof.
  revert st. induction evs as [| ev evs IH]; intros st H; [exact H |].
  cbn [run fold_left]. apply IH, step_counted, H.
Qed.

End UploaderCount.

(** X5. When the publication of a progress line is rejected (and no
    upload promise has failed before), the upload of that file is reported
    as failed: [Promise.all] is rejected with [Failed to upload <file>],
    code [UPLOAD_FAILED], carrying the message of the Kafka error; yet the
    file's command had been sent and the file had been counted. *)
Theorem progress_publish_failure_fails_the_upload
    (mime_lookup : string -> option string)
    (s3BucketName uri distDir : string) (files : list string)
    (isDirectory : string -> bool)
    (pre : list Uploader.event) (i : nat) (cause : exn) :
  let st :=
    Uploader.run pre
      (Uploader.start mime_lookup s3BucketName uri distDir files isDirectory) in
  let st' := Uploader.step st (Uploader.PublishSettled i (Rejected cause)) in
  (forall t, In t (Uploader.uploadPromises st) -> Uploader.is_failed t = false) ->
  Uploader.uploadPromises st !! i = Some Uploader.AwaitPublish ->
  exists file,
    Uploader.uploaded_files st !! i = Some file
    /\ In file files
    /\ Uploader.all st'
       = RejectedWith (BuildError ("Failed to upload " +:+ file) UPLOAD_FAILED
                         (OriginalError (e_message cause)))
    /\ Uploader.uploadedCount st' = Uploader.uploadedCount st
    /\ (1 <= Uploader.uploadedCount st)%nat
    /\ In (Uploader.command_for mime_lookup s3BucketName uri distDir file)
         (Uploader.sent st').
Proof.
  intros st st' Hnone Hi.
  set (st0 := Uploader.start mime_lookup s3BucketName uri distDir files
                isDirectory) in *.
  destruct (start_fields mime_lookup s3BucketName uri distDir isDirectory files)
    as (Hfiles & Hsent & _ & Htasks & Hcount & _).
  fold st0 in Hfiles, Hsent, Htasks, Hcount.
  destruct (run_frame pre st0) as (Fs & Ff & _ & Fl). fold st in Fs, Ff, Fl.
  assert (Hlt : (i < length (Uploader.uploaded_files st))%nat).
  { rewrite Ff, Hfiles. apply lookup_lt_Some in Hi.
    rewrite Fl, Htasks, length_map in Hi. exact Hi. }
  destruct (lookup_lt_is_Some_2 _ _ Hlt) as [file Hfile].
  exists file. split; [exact Hfile |].
  assert (Hin : In file (List.filter (Uploader.is_file distDir isDirectory) files)).
  { rewrite Ff, Hfiles in Hfile. apply list_elem_of_lookup_2 in Hfile.
    apply list_elem_of_In in Hfile. exact Hfile. }
  split; [apply filter_In in Hin; tauto |].
  assert (Hinv : Uploader.all_agrees st).
  { apply run_all_agrees. unfold Uploader.all_agrees, st0, Uploader.start. cbn.
    destruct (Uploader.start_uploads _ _ _ _ _ files); cbn; auto. }
  assert (Hpending : Uploader.all st = Pending).
  { unfold Uploader.all_agrees in Hinv.
    destruct (Uploader.all st) eqn:Ha; [reflexivity | |].
    - pose proof (done_lookup _ _ _ Hinv Hi). discriminate.
    - rewrite (no_failed _ Hnone) in Hinv. discriminate. }
  assert (Hc : (length (List.filter counted (Uploader.uploadPromises st))
                <= Uploader.uploadedCount st)%nat).
  { apply run_counted. rewrite Htasks, Hcount.
    clear. induction (List.filter _ files); cbn; auto. }
  assert (Hone : (1 <= length (List.filter counted (Uploader.uploadPromises st)))%nat).
  { assert (Hm : In Uploader.AwaitPublish
                   (List.filter counted (Uploader.uploadPromises st))).
    { apply filter_In. split; [| reflexivity].
      apply list_elem_of_In. eapply list_elem_of_lookup_2. exact Hi. }
    destruct (List.filter counted (Uploader.uploadPromises st));
      [destruct Hm | cbn; lia]. }
  subst st'. cbn [Uploader.step]. rewrite Hi.
  unfold Uploader.fail_task, Uploader.reject_all, Uploader.set_task. cbn.
  rewrite Hpending, Hfile. cbn.
  split; [reflexivity |]. split; [reflexivity |]. split; [lia |].
  rewrite Fs, Hsent. apply in_map. exact Hin.
Qed.

Lemma progress_publish_failure_fails_the_upload_witness :
  let start :=
    Uploader.start (fun _ => None) "bucket" "demo" "/app/output/dist"
      ["a.js"; "b.css"] (fun _ => false) in
  let st := Uploader.run [Uploader.UploadSettled 1 Fulfilled] start in
  let st' := Uploader.step st
               (Uploader.PublishSettled 1 (Rejected (Error "broker down"))) in
  (forall t, In t (Uploader.uploadPromises st) -> Uploader.is_failed t = false)
  /\ Uploader.uploadPromises st !! 1%nat = Some Uploader.AwaitPublish
  /\ exists file,
       Uploader.uploaded_files st !! 1%nat = Some file
       /\ Uploader.all st'
          = RejectedWith (BuildError ("Failed to upload " +:+ file) UPLOAD_FAILED
                            (OriginalError "broker down")).
Proof.
  intros start st st'.
  assert (H1 : forall t, In t (Uploader.uploadPromises st) ->
                         Uploader.is_failed t = false).
  { intros t [<- | [<- | []]]; reflexivity. }
  assert (H2 : Uploader.uploadPromises st !! 1%nat = Some Uploader.AwaitPublish)
    by reflexivity.
  split; [exact H1 |]. split; [exact H2 |].
  destruct (progress_publish_failure_fails_the_upload (fun _ => None) "bucket" "demo"
              "/app/output/dist" ["a.js"; "b.css"] (fun _ => false)
              [Uploader.UploadSettled 1 Fulfilled] 1 (Error "broker down") H1 H2)
    as (file & Hf & _ & Ha & _).
  exists file. split; [exact Hf | exact Ha].
Defined.

(* ----------------------------------------------------------------- *)
(** ** The start of the two services *)

(** X6. [ClickHouseService.initialize], however its three requests
    settle.  A rejected ping is wrapped with its message and leaves
    [isConnected] as it was.  Once the ping is fulfilled [isConnected] is
    true, and it stays true when the creation of a table fails; that
    failure is wrapped twice, so that the [originalError] reported is
    [Failed to create ClickHouse tables] and not the message of the
    request that failed. *)
Theorem clickhouse_initialize_outcomes (s : server) (r1 r2 r3 : settle) :
  let wrapped m :=
    BuildError "Failed to initialize ClickHouse connection" CLICKHOUSE_ERROR
      (OriginalError m) in
  let s' := fst (complete [r1; r2; r3] ClickHouseService.initialize s) in
  let p' := snd (complete [r1; r2; r3] ClickHouseService.initialize s) in
  match r1 with
  | Rejected e =>
      p' = Throw (wrapped (e_message e))
      /\ isConnected s' = isConnected s
      /\ trace s' = (trace s ++ [Issue ChPing])%list
  | Fulfilled =>
      isConnected s' = true
      /\ match r2, r3 with
         | Fulfilled, Fulfilled =>
             p' = Ret
             /\ trace s'
                = (trace s ++
                   [Issue ChPing; LogInfo "ClickHouse connection established";
                    Issue (ChExec "log_events"); Issue (ChExec "build_metrics");
                    LogInfo "ClickHouse tables verified"])%list
         | _, _ => p' = Throw (wrapped "Failed to create ClickHouse tables")
         end
  end.
Proof.
  intros wrapped s' p'. subst s' p' wrapped.
  destruct s as [env0 ex st bp conn prod lis clk od db fe tr exi].
  destruct r1 as [| e1], r2 as [| e2], r3 as [| e3]; cbn;
    rewrite <- ?app_assoc; repeat split; reflexivity.
Qed.

(** X7. [KafkaService.connect] creates the producer before it connects
    it: after a rejected connection, which is logged and thrown on
    unchanged, [this.producer] is set all the same, so that a later
    [publishLog] does not stop at its guard but sends. *)
Theorem kafka_connect_sets_the_producer_first (s : server) (r : settle) (log : string) :
  let s1 := fst (complete [r] KafkaService.connect s) in
  let p1 := snd (complete [r] KafkaService.connect s) in
  producer s1 = true
  /\ p1 = match r with Fulfilled => Ret | Rejected e => Throw e end
  /\ trace s1
     = (trace s ++ Issue ProducerConnect ::
          match r with
          | Fulfilled => []
          | Rejected e => [LogError "Failed to connect to Kafka:" (Some e)]
          end)%list
  /\ pending (snd (fst (advance (KafkaService.publishLog log) s1)))
     = [ProducerSend log].
Proof.
  intros s1 p1. subst s1 p1.
  destruct s as [env0 ex st bp conn prod lis clk od db fe tr exi].
  destruct r as [| e]; cbn; rewrite <- ?app_assoc; repeat split; reflexivity.
Qed.

(* ----------------------------------------------------------------- *)
(** ** The environment of the child *)

Lemma fold_insert_lookup (l : list (string * string)) (m0 : environment)
    (k v : string) :
  NoDup (map fst l) ->
  fold_left (fun (m : environment) (entry : string * string) =>
               <[fst entry := snd entry]> m) l m0 !! k = Some v
  <-> In (k, v) l \/ (~ In k (map fst l) /\ m0 !! k = Some v).
Proof.
  revert m0. induction l as [| [k' v'] l IH]; intros m0 Hnd.
  - cbn. tauto.
  - cbn [fold_left map fst snd] in *. apply NoDup_cons in Hnd.
    destruct Hnd as [Hk' Hnd]. rewrite IH by exact Hnd.
    rewrite list_elem_of_In in Hk'.
    destruct (decide (k' = k)) as [-> | Hne].
    + rewrite lookup_insert_eq. cbn. split.
      * intros [Hin | [Hn [= ->]]]; [| auto].
        exfalso. apply Hk'. apply in_map_iff. exists (k, v). auto.
      * intros [[[= ->] | Hin] | [Hn _]].
        -- right. auto.
        -- exfalso. apply Hk'. apply in_map_iff. exists (k, v). auto.
        -- exfalso. apply Hn. auto.
    + rewrite lookup_insert_ne by exact Hne. cbn. split.
      * intros [Hin | [Hn Hm]]; [auto |].
        right. split; [| exact Hm]. intros [? | ?]; [congruence | contradiction].
      * intros [[[= -> ->] | Hin] | [Hn Hm]]; [congruence | auto |].
        right. split; [| exact Hm]. intros ?. apply Hn. auto.
Qed.

Lemma NoDup_fst_filter (f : string * string -> bool) (l : list (string * string)) :
  NoDup (map fst l) -> NoDup (map fst (List.filter f l)).
Proof.
  induction l as [| x l IH]; cbn; [auto |]. intros H.
  apply NoDup_cons in H. destruct H as [Hx Hl].
  destruct (f x); cbn; [| auto]. apply NoDup_cons. split; [| auto].
  rewrite list_elem_of_In in *. intros Hin. apply Hx.
  apply in_map_iff in Hin. destruct Hin as (y & Hy & Hin).
  apply filter_In in Hin. apply in_map_iff. exists y. tauto.
Qed.

Lemma getProjectEnvironmentVariables_lookup (env : environment) (k v : string) :
  BuildServer.getProjectEnvironmentVariables env !! k = Some v
  <-> String.prefix "PROJECT_ENVIRONMENT_" k = true /\ env !! k = Some v.
Proof.
  unfold BuildServer.getProjectEnvironmentVariables.
  rewrite fold_insert_lookup.
  - rewrite filter_In, <- list_elem_of_In, elem_of_map_to_list. cbn [fst].
    rewrite lookup_empty. split.
    + intros [[? ?] | [_ [=]]]. auto.
    + intros [? ?]. left. auto.
  - apply NoDup_fst_filter. apply NoDup_fst_map_to_list.
Qed.

(** X8. [getProjectEnvironmentVariables] returns the variables whose
    name starts with [PROJECT_ENVIRONMENT_], under their full name and
    with their value; spreading them over [process.env] therefore changes
    nothing: the environment given to the child is the environment of
    the server, every variable of it included. *)
Theorem build_environment_is_the_server_environment (env : environment) :
  (forall k,
     BuildServer.getProjectEnvironmentVariables env !! k
     = if String.prefix "PROJECT_ENVIRONMENT_" k then env !! k else None)
  /\ BuildServer.exec_env env = env.
Proof.
  assert (H : forall k,
            BuildServer.getProjectEnvironmentVariables env !! k
            = if String.prefix "PROJECT_ENVIRONMENT_" k then env !! k else None).
  { intros k.
    destruct (BuildServer.getProjectEnvironmentVariables env !! k) as [v |] eqn:E.
    - apply getProjectEnvironmentVariables_lookup in E. destruct E as [-> ->].
      reflexivity.
    - destruct (String.prefix "PROJECT_ENVIRONMENT_" k) eqn:P; [| reflexivity].
      destruct (env !! k) as [v |] eqn:Ek; [| reflexivity].
      rewrite (proj2 (getProjectEnvironmentVariables_lookup env k v)) in E
        by auto.
      discriminate. }
  split; [exact H |].
  unfold BuildServer.exec_env. apply map_eq. intros k. rewrite lookup_union, H.
  destruct (String.prefix "PROJECT_ENVIRONMENT_" k), (env !! k); reflexivity.
Qed.

(* ----------------------------------------------------------------- *)
(** ** A signal during the teardown *)






